(** * Student marks dashboard: the data pipeline of [utils/data_utils.py]

    A shallow embedding of [load_data], [compute_student_aggregates],
    [grade_from_percentage], [compute_statistics] and [filter_data] of
    [utils/data_utils.py], and the properties stated about them.
    [export_data] only hands the frame to pandas' writers and is not
    modelled; of [load_data] the part after [pd.read_csv] is.

    Modelling conventions.
    - A Python/numpy [float] is an exact rational, one of the two
      infinities, or NaN.  Arithmetic is exact: the rounding error of
      binary64 is not part of the model.
    - A cell of a [DataFrame] is a dynamically typed Python value.
    - A [DataFrame] is an ordered list of column labels and a list of rows.
      Labels may repeat, as in pandas.
    - An operation that raises in Python returns [Raise e].
    - The sort of [sort_values] is the one pandas function whose result
      the call does not determine; it is a class, [Quicksort], that holds
      what the default [kind] promises. *)

From Stdlib Require Import String Ascii DecimalString Bool ZArith QArith Qround Lia Lqa.
From Stdlib Require Import List Permutation Sorted.
Import ListNotations.

Local Open Scope Z_scope.

(** ** Exceptions *)

Inductive exn : Type :=
| TypeError
| ValueError
| KeyError
| ZeroDivisionError.

Inductive result (A : Type) : Type :=
| Ok (a : A)
| Raise (e : exn).

Arguments Ok {A} a.
Arguments Raise {A} e.

Definition bind {A B : Type} (m : result A) (k : A -> result B) : result B :=
  match m with
  | Ok a => k a
  | Raise e => Raise e
  end.

Notation "x <- m ;; k" := (bind m (fun x => k))
  (at level 61, m at next level, right associativity).

Fixpoint mapM {A B : Type} (f : A -> result B) (l : list A) : result (list B) :=
  match l with
  | [] => Ok []
  | a :: l' => b <- f a ;; bs <- mapM f l' ;; Ok (b :: bs)
  end.

(** ** Floats *)

Inductive float : Type :=
| Fin (q : Q)
| PInf
| NInf
| NaN.

Definition of_Z (z : Z) : float := Fin (inject_Z z).

Definition isnan (x : float) : bool :=
  match x with NaN => true | _ => false end.

(** [x >= y]; every comparison with NaN is false. *)
Definition fge (x y : float) : bool :=
  match x, y with
  | NaN, _ | _, NaN => false
  | PInf, _ => true
  | _, NInf => true
  | Fin a, Fin b => Qle_bool b a
  | _, _ => false
  end.

(** [x > y] *)
Definition fgt (x y : float) : bool :=
  match x, y with
  | NaN, _ | _, NaN => false
  | Fin a, Fin b => negb (Qle_bool a b)
  | PInf, PInf | NInf, NInf => false
  | PInf, _ => true
  | _, NInf => true
  | _, _ => false
  end.

(** [x == y] *)
Definition feq (x y : float) : bool :=
  match x, y with
  | Fin a, Fin b => Qeq_bool a b
  | PInf, PInf | NInf, NInf => true
  | _, _ => false
  end.

Definition fadd (x y : float) : float :=
  match x, y with
  | NaN, _ | _, NaN => NaN
  | PInf, NInf | NInf, PInf => NaN
  | PInf, _ | _, PInf => PInf
  | NInf, _ | _, NInf => NInf
  | Fin a, Fin b => Fin (Qred (a + b))
  end.

(** [x / n] for a Python [int] (or int64) divisor, as at the two division
    sites of [compute_student_aggregates] and in [mean]: a float divided
    by zero is NaN or an infinity, never an exception. *)
Definition fdiv_int (x : float) (n : Z) : float :=
  match x with
  | NaN => NaN
  | PInf => if n <? 0 then NInf else PInf
  | NInf => if n <? 0 then PInf else NInf
  | Fin a =>
      if n =? 0 then
        match Qcompare a 0 with
        | Eq => NaN
        | Gt => PInf
        | Lt => NInf
        end
      else Fin (Qred (a / inject_Z n))
  end.

(** [x * n] for a Python [int] factor. *)
Definition fmul_int (x : float) (n : Z) : float :=
  match x with
  | Fin a => Fin (Qred (a * inject_Z n))
  | PInf => if n =? 0 then NaN else if n <? 0 then NInf else PInf
  | NInf => if n =? 0 then NaN else if n <? 0 then PInf else NInf
  | NaN => NaN
  end.

(** Round half to even, the rounding of [numpy.rint]. *)
Definition rint (q : Q) : Z :=
  let f := Qfloor q in
  match Qcompare (q - inject_Z f) (1 # 2) with
  | Lt => f
  | Gt => f + 1
  | Eq => if Z.even f then f else f + 1
  end.

(** [numpy.round(x, 2)], which is also [Series.round(2)] and [round(x, 2)]
    on a [numpy.float64]: [rint(x * 100) / 100]. *)
Definition round2 (x : float) : float :=
  match x with
  | Fin q => Fin (Qred (inject_Z (rint (q * 100)) / 100))
  | _ => x
  end.

(** Truncation toward zero, the cast [astype(int)] on a finite value. *)
Definition trunc (q : Q) : Z :=
  if Qle_bool 0 q then Qfloor q else Qceiling q.

(** ** Python values held in cells and passed as arguments *)

Inductive cell : Type :=
| CFloat (x : float)
| CInt (z : Z)
| CStr (s : string)
| CNone.

(** *** [float(s)] on a string

    The grammar of the Python reference: surrounding whitespace is
    dropped, then an optional sign, then [inf], [infinity] or [nan] in any
    case, or a decimal number with an optional exponent; digits may be
    grouped with single underscores. *)

Definition is_space (c : ascii) : bool :=
  let n := nat_of_ascii c in
  ((9 <=? n) && (n <=? 13) || (28 <=? n) && (n <=? 32))%nat.

Fixpoint lstrip (l : list ascii) : list ascii :=
  match l with
  | c :: l' => if is_space c then lstrip l' else l
  | [] => []
  end.

Definition rstrip (l : list ascii) : list ascii := rev (lstrip (rev l)).

Definition strip_chars (l : list ascii) : list ascii := rstrip (lstrip l).

(** [str.strip()] *)
Definition strip (s : string) : string :=
  string_of_list_ascii (strip_chars (list_ascii_of_string s)).

Definition digit_val (c : ascii) : option Z :=
  let n := nat_of_ascii c in
  if ((48 <=? n) && (n <=? 57))%nat then Some (Z.of_nat n - 48) else None.

Definition lower (c : ascii) : ascii :=
  let n := nat_of_ascii c in
  if ((65 <=? n) && (n <=? 90))%nat then ascii_of_nat (n + 32) else c.

(** The rest of a digit part whose first digit has been read: [acc] is the
    value so far and [len] the number of digits. *)
Fixpoint digitpart_tail (acc : Z) (len : nat) (l : list ascii)
  : Z * nat * list ascii :=
  match l with
  | [] => (acc, len, [])
  | c :: l' =>
      match digit_val c with
      | Some d => digitpart_tail (10 * acc + d) (S len) l'
      | None =>
          if Ascii.eqb c "_" then
            match l' with
            | c' :: l'' =>
                match digit_val c' with
                | Some d => digitpart_tail (10 * acc + d) (S len) l''
                | None => (acc, len, l)
                end
            | [] => (acc, len, l)
            end
          else (acc, len, l)
      end
  end.

Definition digitpart (l : list ascii) : option (Z * nat * list ascii) :=
  match l with
  | c :: l' =>
      match digit_val c with
      | Some d => Some (digitpart_tail d 1 l')
      | None => None
      end
  | [] => None
  end.

(** [number ::= [digitpart] "." digitpart | digitpart ["."]]; the result is
    the mantissa, the number of digits after the point and the rest. *)
Definition number (l : list ascii) : option (Z * nat * list ascii) :=
  match digitpart l with
  | Some (i, _, r) =>
      match r with
      | "."%char :: r' =>
          match digitpart r' with
          | Some (f, k, r'') => Some (i * 10 ^ Z.of_nat k + f, k, r'')
          | None => Some (i, O, r')
          end
      | _ => Some (i, O, r)
      end
  | None =>
      match l with
      | "."%char :: r' =>
          match digitpart r' with
          | Some (f, k, r'') => Some (f, k, r'')
          | None => None
          end
      | _ => None
      end
  end.

(** [exponent ::= ("e" | "E") [sign] digitpart], to the end of the text. *)
Definition exponent (l : list ascii) : option Z :=
  match l with
  | [] => Some 0
  | c :: l' =>
      if Ascii.eqb (lower c) "e" then
        let '(neg, l'') :=
          match l' with
          | "-"%char :: t => (true, t)
          | "+"%char :: t => (false, t)
          | _ => (false, l')
          end in
        match digitpart l'' with
        | Some (e, _, []) => Some (if neg then - e else e)
        | _ => None
        end
      else None
  end.

Definition pow10 (e : Z) : Q :=
  if e <? 0 then 1 # Z.to_pos (10 ^ (- e)) else inject_Z (10 ^ e).

Definition floatnumber (l : list ascii) : option Q :=
  match number l with
  | Some (m, k, r) =>
      match exponent r with
      | Some e => Some (Qred (inject_Z m * pow10 (e - Z.of_nat k)))
      | None => None
      end
  | None => None
  end.

Definition absfloatvalue (l : list ascii) : option float :=
  let w := string_of_list_ascii (map lower l) in
  if (String.eqb w "inf" || String.eqb w "infinity")%string then Some PInf
  else if String.eqb w "nan" then Some NaN
  else option_map Fin (floatnumber l).

Definition fneg (x : float) : float :=
  match x with
  | Fin q => Fin (Qred (- q))
  | PInf => NInf
  | NInf => PInf
  | NaN => NaN
  end.

Definition float_of_string (s : string) : option float :=
  match strip_chars (list_ascii_of_string s) with
  | "-"%char :: l => option_map fneg (absfloatvalue l)
  | "+"%char :: l => absfloatvalue l
  | l => absfloatvalue l
  end.

(** The built-in [float(v)]. *)
Definition py_float (v : cell) : result float :=
  match v with
  | CFloat x => Ok x
  | CInt z => Ok (of_Z z)
  | CStr s =>
      match float_of_string s with
      | Some x => Ok x
      | None => Raise ValueError
      end
  | CNone => Raise TypeError
  end.

(** ** [grade_from_percentage] *)

Definition grade_from_percentage (pct : cell) : string :=
  match py_float pct with
  | Raise _ => "N/A"
  | Ok pct =>
      if fge pct (of_Z 90) then "A+"
      else if fge pct (of_Z 80) then "A"
      else if fge pct (of_Z 70) then "B+"
      else if fge pct (of_Z 60) then "B"
      else if fge pct (of_Z 50) then "C"
      else if fge pct (of_Z 40) then "D"
      else "F"
  end%string.

(** ** DataFrames *)

Record DataFrame : Type := mkDataFrame {
  columns : list string;
  rows : list (list cell)
}.

(** Every row has one cell per column. *)
Definition wf (df : DataFrame) : Prop :=
  Forall (fun r => length r = length (columns df)) (rows df).

(** [c in df.columns] *)
Definition has_column (df : DataFrame) (c : string) : bool :=
  existsb (String.eqb c) (columns df).

(** [len(df)] *)
Definition len (df : DataFrame) : nat := length (rows df).

(** [df.empty]: one of the two axes has length 0. *)
Definition empty (df : DataFrame) : bool :=
  match rows df, columns df with
  | [], _ | _, [] => true
  | _, _ => false
  end.

(** [pandas.isna] on a cell *)
Definition isna (v : cell) : bool :=
  match v with
  | CFloat NaN | CNone => true
  | _ => false
  end.

(** The cells of row [r] under the label [k], in column order. *)
Fixpoint cells_at (cols : list string) (r : list cell) (k : string) : list cell :=
  match cols, r with
  | c :: cols', v :: r' =>
      if String.eqb c k then v :: cells_at cols' r' k else cells_at cols' r' k
  | _, _ => []
  end.

(** [df[k]] as a Series, for a label [k] that names one column: the cell of
    each row under [k].  (With a repeated label pandas returns a frame; the
    model then keeps the first of the columns.) *)
Definition cell_at (cols : list string) (k : string) (r : list cell) : cell :=
  hd CNone (cells_at cols r k).

Definition column (df : DataFrame) (k : string) : list cell :=
  map (cell_at (columns df) k) (rows df).

(** [df[keys]] for a list of labels: for each key in turn, every column
    that carries it.  A key that is not a label raises [KeyError]. *)
Definition select_row (cols : list string) (keys : list string) (r : list cell)
  : list cell :=
  flat_map (cells_at cols r) keys.

Definition getitem (df : DataFrame) (keys : list string)
  : result (list (list cell)) :=
  if forallb (has_column df) keys
  then Ok (map (select_row (columns df) keys) (rows df))
  else Raise KeyError.

Fixpoint insert_at {A : Type} (loc : nat) (a : A) (l : list A) : list A :=
  match loc, l with
  | O, _ => a :: l
  | S n, x :: l' => x :: insert_at n a l'
  | S _, [] => [a]
  end.

(** [df.insert(loc, c, values)]: refuses a label that is already there, a
    position past the last column and a value list of the wrong length. *)
Definition insert (loc : nat) (c : string) (values : list cell) (df : DataFrame)
  : result DataFrame :=
  if has_column df c then Raise ValueError
  else if (length (columns df) <? loc)%nat then Raise ValueError
  else if negb (length values =? len df)%nat then Raise ValueError
  else Ok {| columns := insert_at loc c (columns df);
             rows := map (fun rv => insert_at loc (snd rv) (fst rv))
                         (combine (rows df) values) |}.

Fixpoint replace_at (cols : list string) (k : string) (v : cell) (r : list cell)
  : list cell :=
  match cols, r with
  | c :: cols', x :: r' =>
      (if String.eqb c k then v else x) :: replace_at cols' k v r'
  | _, _ => r
  end.

(** [df[k] = values]: overwrites the column(s) labelled [k], or appends a
    new last column. *)
Definition setitem (k : string) (values : list cell) (df : DataFrame) : DataFrame :=
  if has_column df k then
    {| columns := columns df;
       rows := map (fun rv => replace_at (columns df) k (snd rv) (fst rv))
                   (combine (rows df) values) |}
  else
    {| columns := columns df ++ [k];
       rows := map (fun rv => fst rv ++ [snd rv]) (combine (rows df) values) |}.

(** [df[k] = v] for a scalar [v] *)
Definition setitem_scalar (k : string) (v : cell) (df : DataFrame) : DataFrame :=
  setitem k (repeat v (len df)) df.

(** [df[mask]] for a boolean mask: the rows whose flag is set. *)
Definition take (mask : list bool) (df : DataFrame) : DataFrame :=
  {| columns := columns df;
     rows := map fst (filter snd (combine (rows df) mask)) |}.

(** ** [load_data]

    [pd.read_csv] is pandas' own; [load_data] is modelled from the frame
    that [read_csv] returns. *)

(** [range(1, n + 1)] *)
Definition range1 (n : nat) : list Z := map Z.of_nat (seq 1 n).

(** [str(i)] *)
Definition str_of_Z (z : Z) : string := NilZero.string_of_int (Z.to_int z).

Definition load_data (parsed : DataFrame) : result DataFrame :=
  df <- (if negb (has_column parsed "StudentID")
         then insert 0 "StudentID" (map CInt (range1 (len parsed))) parsed
         else Ok parsed) ;;
  df <- (if negb (has_column df "Name")
         then insert 1 "Name"
                (map (fun i => CStr ("Student " ++ str_of_Z i)%string) (range1 (len df))) df
         else Ok df) ;;
  Ok {| columns := map strip (columns df); rows := rows df |}.

(** ** [compute_student_aggregates] *)

(** [fillna(v0)] on one cell *)
Definition fillna (v0 : cell) (v : cell) : cell :=
  if isna v then v0 else v.

(** The numeric reading of a cell inside a reduction: [None] for a missing
    value, which [skipna] leaves out; text is rejected. *)
Definition numeric (v : cell) : result (option float) :=
  match v with
  | CFloat NaN | CNone => Ok None
  | CFloat x => Ok (Some x)
  | CInt z => Ok (Some (of_Z z))
  | CStr _ => Raise TypeError
  end.

(** [sum(skipna=True)] over the cells of one row (or of one column). *)
Fixpoint sum_skipna (l : list cell) : result float :=
  match l with
  | [] => Ok (Fin 0)
  | v :: l' =>
      x <- numeric v ;;
      s <- sum_skipna l' ;;
      Ok (match x with Some x => fadd x s | None => s end)
  end.

(** [count]: the number of cells that are not missing. *)
Definition count (l : list cell) : Z :=
  Z.of_nat (length (filter (fun v => negb (isna v)) l)).

(** [astype(int)] on one value: truncates; a NaN or an infinity is
    refused. *)
Definition astype_int (x : float) : result cell :=
  match x with
  | Fin q => Ok (CInt (trunc q))
  | _ => Raise ValueError
  end.

(** The loop [for s in subject_cols: if s not in df.columns: df[s] = 0.0]. *)
Definition add_missing (df : DataFrame) (subject_cols : list string) : DataFrame :=
  fold_left
    (fun d s =>
       if negb (has_column d s) then setitem_scalar s (CFloat (Fin 0)) d else d)
    subject_cols df.

(** Lines 29-32, the zero-fill branch: the totals and the percentages. *)
Definition zero_fill (df : DataFrame) (subject_cols : list string)
  : result (list float * list float) :=
  sel <- getitem df subject_cols ;;
  let marks := map (map (fillna (CFloat (Fin 0)))) sel in
  total <- mapM sum_skipna marks ;;
  let max_total := 100 * Z.of_nat (length subject_cols) in
  let percentage := map (fun t => fmul_int (fdiv_int t max_total) 100) total in
  Ok (total, percentage).

(** Lines 34-37, the skip-missing branch. *)
Definition skip_missing (df : DataFrame) (subject_cols : list string)
  : result (list float * list float) :=
  sel <- getitem df subject_cols ;;
  total <- mapM sum_skipna sel ;;
  let counts := map count sel in
  let percentage :=
    map (fun tc => fmul_int (fdiv_int (fst tc) (snd tc * 100)) 100)
        (combine total counts) in
  let percentage := map (fun p => if isnan p then Fin 0 else p) percentage in
  Ok (total, percentage).

Definition compute_student_aggregates
    (df : DataFrame) (subject_cols : list string) (treat_missing_as_zero : bool)
  : result DataFrame :=
  let df := add_missing df subject_cols in
  tp <- (if treat_missing_as_zero
         then zero_fill df subject_cols
         else skip_missing df subject_cols) ;;
  total_int <- mapM astype_int (fst tp) ;;
  let df := setitem "Total" total_int df in
  let df := setitem "Percentage" (map (fun p => CFloat (round2 p)) (snd tp)) df in
  let df :=
    setitem "Grade"
      (map (fun p => CStr (grade_from_percentage p)) (column df "Percentage")) df in
  Ok df.

(** ** [compute_statistics] *)

Record Stats : Type := mkStats {
  avg : cell;
  median : cell;
  highest : cell;
  pass_rate : cell
}.

(** The values of a numeric Series that are not missing. *)
Fixpoint dropna (l : list cell) : result (list float) :=
  match l with
  | [] => Ok []
  | v :: l' =>
      x <- numeric v ;;
      xs <- dropna l' ;;
      Ok (match x with Some x => x :: xs | None => xs end)
  end.

(** [Series.mean()]: the mean of the values present, NaN when there are
    none. *)
Definition mean (l : list cell) : result float :=
  xs <- dropna l ;;
  Ok (fdiv_int (fold_right fadd (Fin 0) xs) (Z.of_nat (length xs))).

Fixpoint insert_asc (x : float) (l : list float) : list float :=
  match l with
  | [] => [x]
  | y :: l' => if fge y x then x :: l else y :: insert_asc x l'
  end.

Definition sort_asc (l : list float) : list float :=
  fold_right insert_asc [] l.

(** [Series.median()]: the middle value of the values present, or the mean
    of the two middle values; NaN when there are none. *)
Definition median_of (l : list cell) : result float :=
  xs <- dropna l ;;
  let s := sort_asc xs in
  let n := length s in
  Ok (if (n =? 0)%nat then NaN
      else if Nat.even n
           then fdiv_int (fadd (nth (n / 2 - 1) s NaN) (nth (n / 2) s NaN)) 2
           else nth (n / 2) s NaN).

(** [Series.max()]: NaN when no value is present. *)
Definition max_of (l : list cell) : result float :=
  xs <- dropna l ;;
  Ok (match xs with
      | [] => NaN
      | x :: xs' => fold_left (fun m y => if fgt y m then y else m) xs' x
      end).

(** [v >= y] for one cell of a Series against a number: a missing value
    is never above the bound; text cannot be ordered against a number. *)
Definition cell_ge (y : float) (v : cell) : result bool :=
  match v with
  | CFloat x => Ok (fge x y)
  | CInt z => Ok (fge (of_Z z) y)
  | CNone => Ok false
  | CStr _ => Raise TypeError
  end.

(** The mean of a boolean Series, times 100. *)
Definition percent_true (mask : list bool) : float :=
  fmul_int
    (fdiv_int (of_Z (Z.of_nat (length (filter (fun b => b) mask))))
              (Z.of_nat (length mask)))
    100.

Definition zero_stats : Stats :=
  {| avg := CInt 0; median := CInt 0; highest := CInt 0; pass_rate := CInt 0 |}.

Definition compute_statistics (df : DataFrame) : result Stats :=
  if empty df || negb (has_column df "Percentage") then Ok zero_stats
  else
    let pct := column df "Percentage" in
    a <- mean pct ;;
    m <- median_of pct ;;
    h <- max_of pct ;;
    mask <- mapM (cell_ge (of_Z 40)) pct ;;
    let p := percent_true mask in
    Ok {| avg := CFloat (round2 a);
          median := CFloat (round2 m);
          highest := CFloat (round2 h);
          pass_rate := CFloat (round2 p) |}.

(** ** [filter_data] *)

(** Elementwise [==] of a cell with a scalar: numbers compare by value, a
    missing value equals nothing. *)
Definition cell_eq (a b : cell) : bool :=
  match a, b with
  | CStr s, CStr t => String.eqb s t
  | CFloat x, CFloat y => feq x y
  | CInt x, CInt y => Z.eqb x y
  | CFloat x, CInt z | CInt z, CFloat x => feq x (of_Z z)
  | _, _ => false
  end.

(** The sort behind [sort_values(by=..., ascending=False)].  The call names
    no [kind], so pandas runs numpy's default [quicksort], which is only
    promised to order the keys: what happens to equal keys is left to the
    implementation.  The class records that contract; the functions below
    are written against any instance. *)
Class Quicksort : Type := {
  qsort : forall {A : Type}, (A -> float) -> list A -> list A;
  qsort_perm : forall (A : Type) (key : A -> float) (l : list A),
      Permutation (qsort key l) l;
  qsort_sorted : forall (A : Type) (key : A -> float) (l : list A),
      Forall (fun a => isnan (key a) = false) l ->
      StronglySorted (fun a b => fge (key a) (key b) = true) (qsort key l)
}.

(** The sort key of a cell of the [by] column. *)
Definition float_key (v : cell) : float :=
  match v with
  | CFloat x => x
  | CInt z => of_Z z
  | _ => NaN
  end.

(** [head(n)]: the first [n] rows, or all but the last [-n] when [n] is
    negative. *)
Definition head {A : Type} (n : Z) (l : list A) : list A :=
  if n <? 0 then firstn (length l - Z.to_nat (- n)) l
  else firstn (Z.to_nat n) l.

(** [int(top_n)], read only where [top_n] is truthy. *)
Definition int_of (top_n : option Z) : Z :=
  match top_n with
  | Some n => n
  | None => 0
  end.

(** [if top_n] *)
Definition truthy (top_n : option Z) : bool :=
  match top_n with
  | Some n => negb (n =? 0)
  | None => false
  end.

Section Filter.

Context {K : Quicksort}.

(** [df.sort_values(by="Percentage", ascending=False)]: the rows whose key
    is present, in descending order of the key, then the rows whose key
    is missing, in their input order ([na_position="last"]).  Keys are
    numbers: text among them is reported as [TypeError], as pandas does
    for text mixed with numbers (a column of text alone, which pandas
    orders as text, is outside the model). *)
Definition sort_values (df : DataFrame) : result DataFrame :=
  _ <- mapM numeric (column df "Percentage") ;;
  let pct := cell_at (columns df) "Percentage" in
  let present := filter (fun r => negb (isna (pct r))) (rows df) in
  let missing := filter (fun r => isna (pct r)) (rows df) in
  Ok {| columns := columns df;
        rows := qsort (fun r => float_key (pct r)) present ++ missing |}.

(** Lines 77-78 and 79-80: an equality filter on a grouping column. *)
Definition filter_eq (label : string) (sel : cell) (df : DataFrame) : DataFrame :=
  if negb (cell_eq sel (CStr "All")) && has_column df label
  then take (map (fun v => cell_eq v sel) (column df label)) df
  else df.

(** Lines 81-82: the threshold on [Percentage]. *)
Definition filter_min (min_percent : float) (df : DataFrame) : result DataFrame :=
  if fgt min_percent (Fin 0) && has_column df "Percentage"
  then mask <- mapM (cell_ge min_percent) (column df "Percentage") ;;
       Ok (take mask df)
  else Ok df.

(** Lines 83-84: the top-N step. *)
Definition top_n_step (top_n : option Z) (df : DataFrame) : result DataFrame :=
  if truthy top_n && has_column df "Percentage"
  then sorted <- sort_values df ;;
       Ok {| columns := columns sorted;
             rows := head (int_of top_n) (rows sorted) |}
  else Ok df.

Definition filter_data (df : DataFrame) (sel_class sel_section : cell)
    (min_percent : float) (top_n : option Z) : result DataFrame :=
  let filtered := df in
  let filtered := filter_eq "Class" sel_class filtered in
  let filtered := filter_eq "Section" sel_section filtered in
  filtered <- filter_min min_percent filtered ;;
  filtered <- top_n_step top_n filtered ;;
  Ok filtered.

End Filter.

(** *** Two sorts that meet the contract

  Both are insertion sorts into a descending list.  [stable_sort] puts a
  new element before the elements of equal key, so equal keys keep their
  input order; [reversing_sort] puts it after them. *)

Section Insertion.

Context {A : Type} (key : A -> float).

Fixpoint insert_by (skip : float -> float -> bool) (x : A) (l : list A) : list A :=
  match l with
  | [] => [x]
  | y :: l' =>
      if skip (key y) (key x) then y :: insert_by skip x l' else x :: l
  end.

Definition insertion_sort (skip : float -> float -> bool) (l : list A) : list A :=
  fold_right (insert_by skip) [] l.

Definition stable_sort : list A -> list A := insertion_sort fgt.


End Insertion.

(** * Definitions used in the statements *)

(** The grade bands as the specification words them: inclusive lower
    bounds, each band closed below and open above. *)
Inductive grade_of (q : Q) : string -> Prop :=
| band_A_plus : (90 <= q)%Q -> grade_of q "A+"
| band_A : (80 <= q)%Q -> (q < 90)%Q -> grade_of q "A"
| band_B_plus : (70 <= q)%Q -> (q < 80)%Q -> grade_of q "B+"
| band_B : (60 <= q)%Q -> (q < 70)%Q -> grade_of q "B"
| band_C : (50 <= q)%Q -> (q < 60)%Q -> grade_of q "C"
| band_D : (40 <= q)%Q -> (q < 50)%Q -> grade_of q "D"
| band_F : (q < 40)%Q -> grade_of q "F".

(** Three records, subject columns Math and Science. *)
Definition example_dataset : DataFrame :=
  {| columns := ["Math"; "Science"]%string;
     rows := [ [CInt 80; CInt 70]; [CInt 50; CInt 40]; [CInt 100; CInt 100] ] |}.

Definition example_subjects : list string := ["Math"; "Science"]%string.

(** What the example reports: the three derived columns and the summary. *)
Definition example_outcome (grades : list cell) : Prop :=
  exists d,
    compute_student_aggregates example_dataset example_subjects true = Ok d /\
    column d "Total" = [CInt 150; CInt 90; CInt 200] /\
    column d "Percentage" =
      [CFloat (Fin 75); CFloat (Fin 45); CFloat (Fin 100)] /\
    column d "Grade" = grades /\
    compute_statistics d =
      Ok {| avg := CFloat (Fin 73.33); median := CFloat (Fin 75);
            highest := CFloat (Fin 100); pass_rate := CFloat (Fin 100) |}.

(** A header that pads the identity column with a blank, as in the CSV
    text [" StudentID,Math"]. *)
Definition padded_header : DataFrame :=
  {| columns := [" StudentID"; "Math"]%string;
     rows := [ [CInt 7; CInt 80]; [CInt 9; CInt 50] ] |}.

(** The value of [f a] when it is known not to raise. *)
Definition get {B : Type} (d : B) (m : result B) : B :=
  match m with
  | Ok b => b
  | Raise _ => d
  end.

(** A cell that holds text. *)
Definition is_text (v : cell) : bool :=
  match v with
  | CStr _ => true
  | _ => false
  end.

(** A column of numbers, some of which may be missing. *)
Definition numeric_column (l : list cell) : Prop :=
  Forall (fun v => is_text v = false) l.

(** The row test of an equality filter; it passes every row when the step
    is skipped. *)
Definition eq_pred (cols : list string) (label : string) (sel : cell)
    (r : list cell) : bool :=
  if negb (cell_eq sel (CStr "All")) && existsb (String.eqb label) cols
  then cell_eq (cell_at cols label r) sel
  else true.

(** The row test of the threshold step. *)
Definition min_pred (cols : list string) (min_percent : float) (r : list cell) : bool :=
  if fgt min_percent (Fin 0) && existsb (String.eqb "Percentage") cols
  then get false (cell_ge min_percent (cell_at cols "Percentage" r))
  else true.

(** A frame with the columns of [df] and some of its rows. *)
Definition subframe (d df : DataFrame) : Prop :=
  columns d = columns df /\ incl (rows d) (rows df).

(** The rows that the three predicate steps keep. *)
Definition kept (cols : list string) (c s : cell) (m : float) (r : list cell) : bool :=
  eq_pred cols "Class" c r && eq_pred cols "Section" s r && min_pred cols m r.

(** The sort key of a row and the two halves that [sort_values] makes of
    the rows. *)
Definition pct_key (cols : list string) (r : list cell) : float :=
  float_key (cell_at cols "Percentage" r).

Definition present (cols : list string) (r : list cell) : bool :=
  negb (isna (cell_at cols "Percentage" r)).

Definition missing (cols : list string) (r : list cell) : bool :=
  isna (cell_at cols "Percentage" r).

(** Descending by [Percentage]. *)
Definition descending (cols : list string) (l : list (list cell)) : Prop :=
  StronglySorted (fun a b => fge (pct_key cols a) (pct_key cols b) = true) l.

(** A sort that keeps rows of equal key in input order sorts as
    [stable_sort] does. *)
Definition Stable (K : Quicksort) : Prop :=
  forall (A : Type) (key : A -> float) (l : list A), qsort key l = stable_sort key l.


(** Three records with three Percentages. *)
Definition ranked_dataset : DataFrame :=
  {| columns := ["Name"; "Percentage"]%string;
     rows := [ [CStr "Ann"; CFloat (Fin 90)];
               [CStr "Bob"; CFloat (Fin 80)];
               [CStr "Cy"; CFloat (Fin 70)] ] |}.


(** C6, as stated: the top-N step is the stable descending sort followed
    by the truncation. *)
Definition stable_top_n (n : Z) (df : DataFrame) : DataFrame :=
  {| columns := columns df;
     rows := firstn (Z.to_nat n)
               (stable_sort (pct_key (columns df))
                            (filter (present (columns df)) (rows df))
                ++ filter (missing (columns df)) (rows df)) |}.


(** A record without a Percentage among records that have one. *)
Definition gappy_dataset : DataFrame :=
  {| columns := ["Name"; "Percentage"]%string;
     rows := [ [CStr "Ann"; CFloat (Fin 90)];
               [CStr "Bob"; CFloat NaN];
               [CStr "Cy"; CFloat (Fin 30)] ] |}.

(** Rounding to two decimals, in lowest terms. *)
Definition round_2dp (q : Q) : Q :=
  Qred (inject_Z (rint (q * 100)) / 100).

(** The number in a cell, when the cell holds a finite number. *)
Definition score (v : cell) : option Q :=
  match v with
  | CFloat (Fin q) => Some q
  | CInt z => Some (inject_Z z)
  | _ => None
  end.

(** A subject cell is a finite number or is missing. *)
Definition valid (v : cell) : Prop :=
  isna v = true \/ exists q, score v = Some q.


(** The values present among some cells. *)
Fixpoint values (l : list cell) : list Q :=
  match l with
  | [] => []
  | v :: l' =>
      match score v with
      | Some q => q :: values l'
      | None => values l'
      end
  end.

Definition Qsum (l : list Q) : Q := fold_right Qplus 0%Q l.

(** A total as a share of the maximum, in percent, to two decimals. *)
Definition percent_of (total : Q) (max_total : Z) : Q :=
  round_2dp (total / inject_Z max_total * 100).


(** The subject cells of every record, as the aggregator reads them: the
    cells under the subject labels once the absent columns are filled. *)
Definition subject_cells (df : DataFrame) (subject_cols : list string)
  : list (list cell) :=
  map (select_row (columns (add_missing df subject_cols)) subject_cols)
      (rows (add_missing df subject_cols)).

(** One record with the scores 1, 1, 0. *)
Definition thirds_dataset : DataFrame :=
  {| columns := ["Math"; "Science"; "Art"]%string;
     rows := [ [CInt 1; CInt 1; CInt 0] ] |}.

Definition thirds_subjects : list string := ["Math"; "Science"; "Art"]%string.




(** The rows with the two identity cells in front, numbered from [i]. *)
Fixpoint number_rows (i : Z) (l : list (list cell)) : list (list cell) :=
  match l with
  | [] => []
  | r :: l' =>
      (CInt i :: CStr ("Student " ++ str_of_Z i) :: r) :: number_rows (i + 1) l'
  end.

(** The eight grades, and their rank from "F" upwards. *)
Definition grades : list string :=
  ["A+"; "A"; "B+"; "B"; "C"; "D"; "F"; "N/A"]%string.

Definition grade_rank (g : string) : nat :=
  if String.eqb g "A+" then 6
  else if String.eqb g "A" then 5
  else if String.eqb g "B+" then 4
  else if String.eqb g "B" then 3
  else if String.eqb g "C" then 2
  else if String.eqb g "D" then 1
  else 0.

(** In the ranking of the top-N step [a] may stand before [b]: [b] has no
    Percentage, or the Percentage of [a] is at least that of [b]. *)
Definition outranks (cols : list string) (a b : list cell) : Prop :=
  missing cols b = true \/ fge (pct_key cols a) (pct_key cols b) = true.

(** ** [app.py]: the data steps of the dashboard script

    The script is Streamlit calls around a few pandas expressions; the
    expressions of lines 59-60 and 136-145 are modelled, the widgets and
    charts are not. *)

Definition is_int (v : cell) : bool :=
  match v with
  | CInt _ => true
  | _ => false
  end.

Definition sum_int (l : list cell) : Z :=
  fold_right (fun v acc => match v with CInt z => z + acc | _ => acc end) 0 l.

(** [df[subject_cols].sum(axis=1)] as a Series of cells: integers when every
    selected column holds integers, floats otherwise. *)
Definition row_totals (sel : list (list cell)) : result (list cell) :=
  if forallb (forallb is_int) sel
  then Ok (map (fun cells => CInt (sum_int cells)) sel)
  else total <- mapM sum_skipna sel ;; Ok (map CFloat total).

(** [v / n * 100] on one cell of a numeric Series. *)
Definition cell_percent (n : Z) (v : cell) : result cell :=
  match v with
  | CFloat x => Ok (CFloat (fmul_int (fdiv_int x n) 100))
  | CInt z => Ok (CFloat (fmul_int (fdiv_int (of_Z z) n) 100))
  | CStr _ | CNone => Raise TypeError
  end.

(** Lines 59-60:
    [df["Total"] = df[subject_cols].sum(axis=1)] and
    [df["Percentage"] = df["Total"] / (len(subject_cols) * 100) * 100].
    The script reaches them with a non-empty [subject_cols] only (it stops
    at line 57 otherwise). *)
Definition process_data (df : DataFrame) (subject_cols : list string)
  : result DataFrame :=
  sel <- getitem df subject_cols ;;
  total <- row_totals sel ;;
  let df := setitem "Total" total df in
  pct <- mapM (cell_percent (Z.of_nat (length subject_cols) * 100))
              (column df "Total") ;;
  Ok (setitem "Percentage" pct df).

(** Lines 136-140: the columns of the "Top Students" table. *)
Definition top_cols (df_filtered : DataFrame) : list string :=
  let top_cols := ["Name"; "Section"; "Percentage"; "Total"]%string in
  let top_cols :=
    if has_column df_filtered "StudentID"
    then insert_at 0 "StudentID"%string top_cols else top_cols in
  if has_column df_filtered "Class"
  then insert_at 1 "Class"%string top_cols else top_cols.

(** [df[keys]] as a frame: the selected cells under the selected labels. *)
Definition getitem_frame (df : DataFrame) (keys : list string) : result DataFrame :=
  sel <- getitem df keys ;;
  Ok {| columns := flat_map (fun k => filter (String.eqb k) (columns df)) keys;
        rows := sel |}.

(** Lines 142-145: the table
    [df_filtered[top_cols].sort_values(by="Percentage", ascending=False).head(top_n)]. *)
Definition top_students {K : Quicksort} (df_filtered : DataFrame) (top_n : Z)
  : result DataFrame :=
  sub <- getitem_frame df_filtered (top_cols df_filtered) ;;
  sorted <- sort_values sub ;;
  Ok {| columns := columns sorted; rows := head top_n (rows sorted) |}.

(** [astype(int)] and [round(2)] on a cell that holds a finite float. *)
Definition as_int (v : cell) : cell :=
  match v with
  | CFloat (Fin q) => CInt (trunc q)
  | _ => v
  end.

Definition rounded (v : cell) : cell :=
  match v with
  | CFloat x => CFloat (round2 x)
  | _ => v
  end.

(** The total of one record as line 59 computes it: an integer when every
    selected column holds integers, a float otherwise. *)
Definition row_total (ints : bool) (cells : list cell) : cell :=
  if ints then CInt (sum_int cells)
  else CFloat (Fin (Qred (Qsum (values cells)))).

(** * Properties *)

(** ** Grades *)

Lemma Qle_bool_false (a b : Q) : Qle_bool a b = false -> (b < a)%Q.
Proof.
  intros H. apply Qnot_le_lt. intros Hle.
  apply Qle_bool_iff in Hle. congruence.
Qed.




(** The bands do not overlap: a percentage has one grade. *)
Lemma grade_of_functional (q : Q) (g g' : string) :
  grade_of q g -> grade_of q g' -> g = g'.
Proof.
  intros H H'; destruct H; destruct H'; try reflexivity; exfalso; lra.
Qed.

(** Input that [float] refuses is what yields "N/A": [None], and text
    that is not a float literal. *)
Lemma py_float_raises (v : cell) :
  (exists e, py_float v = Raise e) <->
  v = CNone \/ exists s, v = CStr s /\ float_of_string s = None.
Proof.
  split.
  - intros [e H]. destruct v as [x|z|s|]; simpl in H; try discriminate.
    + right. exists s. split; [reflexivity|].
      destruct (float_of_string s); [discriminate|reflexivity].
    + now left.
  - intros [->|[s [-> Hs]]]; simpl.
    + now exists TypeError.
    + rewrite Hs. now exists ValueError.
Qed.

(** A NaN and the infinities are floats: NaN fails every comparison and
    falls through to "F". *)
Lemma grade_of_special :
  grade_from_percentage (CFloat NaN) = "F"%string /\
  grade_from_percentage (CFloat PInf) = "A+"%string /\
  grade_from_percentage (CFloat NInf) = "F"%string.
Proof. repeat split. Qed.



(** ** The two insertion sorts meet the sorting contract *)

Lemma fge_trans (a b c : float) :
  fge a b = true -> fge b c = true -> fge a c = true.
Proof.
  destruct a as [a| | |], b as [b| | |], c as [c| | |]; simpl;
    try discriminate; try reflexivity.
  intros H1 H2. apply Qle_bool_iff in H1, H2. apply Qle_bool_iff.
  now apply Qle_trans with b.
Qed.


Lemma fgt_fge (a b : float) : fgt a b = true -> fge a b = true.
Proof.
  destruct a as [a| | |], b as [b| | |]; simpl;
    try discriminate; try reflexivity.
  intros H. apply negb_true_iff, Qle_bool_false in H. apply Qle_bool_iff.
  now apply Qlt_le_weak.
Qed.

Lemma fgt_false_fge (a b : float) :
  isnan a = false -> isnan b = false -> fgt a b = false -> fge b a = true.
Proof.
  destruct a as [a| | |], b as [b| | |]; simpl;
    try discriminate; try reflexivity.
  intros _ _ H. apply negb_false_iff in H. exact H.
Qed.

Section InsertionFacts.

Context {A : Type} (key : A -> float) (skip : float -> float -> bool).

Hypothesis skip_ge : forall a b, skip a b = true -> fge a b = true.
Hypothesis skip_no : forall a b,
  isnan a = false -> isnan b = false -> skip a b = false -> fge b a = true.

Let ge (a b : A) : Prop := fge (key a) (key b) = true.

Lemma insert_by_perm (x : A) (l : list A) :
  Permutation (insert_by key skip x l) (x :: l).
Proof.
  induction l as [|y l IH]; simpl; [reflexivity|].
  destruct (skip (key y) (key x)); [|reflexivity].
  rewrite IH. apply perm_swap.
Qed.

Lemma insertion_sort_perm (l : list A) :
  Permutation (insertion_sort key skip l) l.
Proof.
  induction l as [|x l IH]; simpl; [reflexivity|].
  rewrite insert_by_perm. now constructor.
Qed.

Lemma insert_by_sorted (x : A) (l : list A) :
  isnan (key x) = false ->
  Forall (fun a => isnan (key a) = false) l ->
  StronglySorted ge l -> StronglySorted ge (insert_by key skip x l).
Proof.
  intros Hx Hl Hs. induction Hs as [|y l Hs IH Hy]; simpl.
  - constructor; constructor.
  - inversion Hl as [|? ? Hny Hl']; subst.
    destruct (skip (key y) (key x)) eqn:E.
    + constructor; [now apply IH|].
      eapply Permutation_Forall.
      * symmetry. apply insert_by_perm.
      * constructor; [now apply skip_ge | exact Hy].
    + constructor; [now constructor|].
      assert (Hxy : ge x y) by (now apply skip_no).
      constructor; [exact Hxy|].
      eapply Forall_impl; [|exact Hy].
      intros a Ha. unfold ge in *. now apply fge_trans with (key y).
Qed.

Lemma insertion_sort_sorted (l : list A) :
  Forall (fun a => isnan (key a) = false) l ->
  StronglySorted ge (insertion_sort key skip l).
Proof.
  induction 1 as [|x l Hx Hl IH]; simpl; [constructor|].
  apply insert_by_sorted; [exact Hx| |exact IH].
  eapply Permutation_Forall; [|exact Hl].
  symmetry. apply insertion_sort_perm.
Qed.

End InsertionFacts.

(** A sort that keeps equal keys in input order. *)
#[local] Instance stable_quicksort : Quicksort.
Proof.
  refine {| qsort := fun A key l => stable_sort key l |}.
  - intros A key l. apply insertion_sort_perm.
  - intros A key l Hl. apply insertion_sort_sorted; [ | |exact Hl].
    + intros a b. apply fgt_fge.
    + intros a b. apply fgt_false_fge.
Defined.


(** ** The worked example of the specification *)

(** C2, as stated: the grades of the example are B+, C, A+.  The second
    record has 45 percent, which is below the bound 50 of "C": the claim
    fails. *)
Lemma example_grades_not_B_plus_C_A_plus :
  ~ example_outcome [CStr "B+"; CStr "C"; CStr "A+"].
Proof.
  intros [d [Hd [_ [_ [Hg _]]]]].
  vm_compute in Hd. injection Hd as <-. vm_compute in Hg. discriminate.
Qed.

(** C2, amended. On the three-record example the zero-fill aggregator
    yields Totals 150, 90, 200, Percentages 75.0, 45.0, 100.0 and Grades
    B+, D, A+, and [compute_statistics] of the result is avg 73.33,
    median 75.0, highest 100.0, pass_rate 100.0. *)
Theorem example_aggregates_and_statistics :
  example_outcome [CStr "B+"; CStr "D"; CStr "A+"].
Proof.
  eexists. split; [vm_compute; reflexivity|].
  repeat split.
Qed.

(** ** [load_data] *)

Lemma range1_length (n : nat) : length (range1 n) = n.
Proof. unfold range1. now rewrite length_map, length_seq. Qed.

Lemma insert_ok (loc : nat) (c : string) (values : list cell) (df : DataFrame) :
  has_column df c = false ->
  (loc <= length (columns df))%nat ->
  length values = len df ->
  insert loc c values df =
    Ok {| columns := insert_at loc c (columns df);
          rows := map (fun rv => insert_at loc (snd rv) (fst rv))
                      (combine (rows df) values) |}.
Proof.
  intros Hc Hloc Hlen. unfold insert. rewrite Hc.
  destruct (Nat.ltb_spec (length (columns df)) loc); [lia|].
  rewrite Hlen, Nat.eqb_refl. reflexivity.
Qed.

Lemma combine_rows_length {A B : Type} (l : list A) (vs : list B) :
  length vs = length l -> length (combine l vs) = length l.
Proof. intros H. rewrite length_combine. lia. Qed.

(** [load_data] returns a frame for every parsed input: neither [insert]
    can be refused. *)
Lemma load_data_total (parsed : DataFrame) :
  exists df, load_data parsed = Ok df.
Proof.
  unfold load_data.
  assert (H1 : exists d1,
    (if negb (has_column parsed "StudentID")
     then insert 0 "StudentID" (map CInt (range1 (len parsed))) parsed
     else Ok parsed) = Ok d1 /\ (1 <= length (columns d1))%nat).
  { destruct (has_column parsed "StudentID") eqn:E; simpl.
    - exists parsed. split; [reflexivity|].
      unfold has_column in E. destruct (columns parsed); [discriminate|simpl; lia].
    - rewrite insert_ok; [eexists; split; [reflexivity|simpl; lia] | exact E | lia |].
      now rewrite length_map, range1_length. }
  destruct H1 as [d1 [-> Hd1]]. simpl.
  destruct (has_column d1 "Name") eqn:E; simpl.
  - eexists; reflexivity.
  - rewrite insert_ok; [eexists; reflexivity | exact E | exact Hd1 |].
    now rewrite length_map, range1_length.
Qed.

(** C8, at a header with a padded [StudentID]. The presence test runs on
    the labels as parsed, before they are stripped: the test misses
    [" StudentID"], a fresh [StudentID] column is inserted, and stripping
    then leaves two columns with that label. *)
Theorem load_data_duplicates_padded_StudentID :
  load_data padded_header =
    Ok {| columns := ["StudentID"; "Name"; "StudentID"; "Math"]%string;
          rows := [ [CInt 1; CStr "Student 1"; CInt 7; CInt 80];
                    [CInt 2; CStr "Student 2"; CInt 9; CInt 50] ] |}.
Proof. reflexivity. Qed.

(** ** Generic facts: [mapM], [filter], [combine] *)

Lemma mapM_map {A B : Type} (f : A -> result B) (g : A -> B) (l : list A) :
  (forall a, In a l -> f a = Ok (g a)) -> mapM f l = Ok (map g l).
Proof.
  induction l as [|a l IH]; intros H; simpl; [reflexivity|].
  rewrite (H a (or_introl eq_refl)). simpl.
  rewrite IH; [reflexivity|]. intros b Hb. apply H. now right.
Qed.

Lemma mapM_Ok_In {A B : Type} (f : A -> result B) (l : list A) (l' : list B) :
  mapM f l = Ok l' -> forall a, In a l -> exists b, f a = Ok b.
Proof.
  revert l'. induction l as [|x l IH]; intros l' H a Ha; [easy|].
  simpl in H. destruct (f x) as [b|e] eqn:Hx; [|discriminate]. simpl in H.
  destruct (mapM f l) as [bs|e] eqn:Hl; [|discriminate].
  destruct Ha as [<-|Ha]; [now exists b | now apply (IH bs)].
Qed.


Lemma mapM_Ok_map {A B : Type} (d : B) (f : A -> result B) (l : list A) (l' : list B) :
  mapM f l = Ok l' -> l' = map (fun a => get d (f a)) l.
Proof.
  revert l'. induction l as [|x l IH]; intros l' H; simpl in H.
  - now injection H as <-.
  - destruct (f x) as [b|e] eqn:Hx; [|discriminate]. simpl in H.
    destruct (mapM f l) as [bs|e] eqn:Hl; [|discriminate]. simpl in H.
    injection H as <-. simpl. rewrite Hx. simpl. f_equal. now apply IH.
Qed.

Lemma mapM_total {A B : Type} (f : A -> result B) (l : list A) :
  (forall a, In a l -> exists b, f a = Ok b) -> exists l', mapM f l = Ok l'.
Proof.
  induction l as [|x l IH]; intros H; simpl; [now eexists|].
  destruct (H x (or_introl eq_refl)) as [b ->]. simpl.
  destruct IH as [bs ->]; [intros a Ha; apply H; now right|].
  simpl. now eexists.
Qed.

Lemma filter_id {A : Type} (p : A -> bool) (l : list A) :
  (forall a, In a l -> p a = true) -> filter p l = l.
Proof.
  induction l as [|x l IH]; intros H; simpl; [reflexivity|].
  rewrite (H x (or_introl eq_refl)). f_equal. apply IH.
  intros a Ha. apply H. now right.
Qed.

Lemma filter_none {A : Type} (p : A -> bool) (l : list A) :
  (forall a, In a l -> p a = false) -> filter p l = [].
Proof.
  induction l as [|x l IH]; intros H; simpl; [reflexivity|].
  rewrite (H x (or_introl eq_refl)). apply IH.
  intros a Ha. apply H. now right.
Qed.

Lemma take_map_rows {A : Type} (p : A -> bool) (l : list A) :
  map fst (filter snd (combine l (map p l))) = filter p l.
Proof.
  induction l as [|x l IH]; simpl; [reflexivity|].
  destruct (p x); simpl; now rewrite IH.
Qed.

Lemma map_combine_snd {A B C : Type} (f : A * B -> C) (g : C -> B)
    (l : list A) (vs : list B) :
  length vs = length l ->
  (forall a v, In a l -> g (f (a, v)) = v) ->
  map g (map f (combine l vs)) = vs.
Proof.
  revert vs. induction l as [|a l IH]; intros [|v vs] Hlen H; simpl in *;
    try discriminate; [reflexivity|].
  rewrite H by now left. f_equal. apply IH; [lia|].
  intros a' v' Ha'. apply H. now right.
Qed.

Lemma map_combine_fst {A B C D : Type} (f : A * B -> C) (g : C -> D) (g' : A -> D)
    (l : list A) (vs : list B) :
  length vs = length l ->
  (forall a v, In a l -> g (f (a, v)) = g' a) ->
  map g (map f (combine l vs)) = map g' l.
Proof.
  revert vs. induction l as [|a l IH]; intros [|v vs] Hlen H; simpl in *;
    try discriminate; [reflexivity|].
  rewrite H by now left. f_equal. apply IH; [lia|].
  intros a' v' Ha'. apply H. now right.
Qed.

(** ** [compute_statistics] *)

Lemma numeric_total (v : cell) :
  is_text v = false -> exists o, numeric v = Ok o.
Proof.
  destruct v as [[q| | |]|z|s|]; simpl; intros H;
    try discriminate; now eexists.
Qed.

Lemma cell_ge_total (y : float) (v : cell) :
  is_text v = false -> exists b, cell_ge y v = Ok b.
Proof.
  destruct v as [x|z|s|]; simpl; intros H; try discriminate; now eexists.
Qed.

Lemma dropna_total (l : list cell) :
  numeric_column l -> exists xs, dropna l = Ok xs.
Proof.
  induction 1 as [|v l Hv Hl [xs IH]]; simpl; [now eexists|].
  destruct (numeric_total v Hv) as [o ->]. simpl. rewrite IH. simpl.
  now eexists.
Qed.


Lemma compute_statistics_total (df : DataFrame) :
  numeric_column (column df "Percentage") ->
  exists s, compute_statistics df = Ok s.
Proof.
  intros H. unfold compute_statistics.
  destruct (empty df || negb (has_column df "Percentage")); [now eexists|].
  unfold mean, median_of, max_of.
  destruct (dropna_total _ H) as [xs ->]. simpl.
  destruct (mapM_total (cell_ge (of_Z 40)) (column df "Percentage")) as [mask ->].
  - intros v Hv. apply cell_ge_total.
    unfold numeric_column in H. rewrite Forall_forall in H. now apply H.
  - simpl. now eexists.
Qed.

(** A [Percentage] column that is there but holds no value is not the
    default case: the mean, the median and the maximum of nothing are
    NaN. *)
Lemma compute_statistics_all_missing :
  compute_statistics {| columns := ["Percentage"]%string; rows := [[CFloat NaN]] |} =
    Ok {| avg := CFloat NaN; median := CFloat NaN; highest := CFloat NaN;
          pass_rate := CFloat (Fin 0) |}.
Proof. reflexivity. Qed.



(** ** [filter_data]: the three predicate steps as row predicates *)

Lemma frame_eta (df : DataFrame) :
  {| columns := columns df; rows := rows df |} = df.
Proof. now destruct df. Qed.

Lemma filter_eq_rows (label : string) (sel : cell) (df : DataFrame) :
  filter_eq label sel df =
    {| columns := columns df;
       rows := filter (eq_pred (columns df) label sel) (rows df) |}.
Proof.
  unfold filter_eq, eq_pred, has_column.
  destruct (negb (cell_eq sel (CStr "All")) && existsb (String.eqb label) (columns df)).
  - unfold take, column. now rewrite map_map, take_map_rows.
  - rewrite filter_id by reflexivity. symmetry. apply frame_eta.
Qed.

Lemma filter_min_rows (m : float) (df d : DataFrame) :
  filter_min m df = Ok d ->
  d = {| columns := columns df;
         rows := filter (min_pred (columns df) m) (rows df) |}.
Proof.
  unfold filter_min, min_pred, has_column.
  destruct (fgt m (Fin 0) && existsb (String.eqb "Percentage") (columns df)).
  - destruct (mapM (cell_ge m) (column df "Percentage")) as [mask|e] eqn:E;
      [|discriminate].
    simpl. intros H. injection H as <-.
    apply (mapM_Ok_map false) in E. subst mask.
    unfold take, column. now rewrite map_map, take_map_rows.
  - intros H. injection H as <-.
    rewrite filter_id by reflexivity. symmetry. apply frame_eta.
Qed.

Lemma filter_min_total (m : float) (df : DataFrame) :
  numeric_column (column df "Percentage") -> exists d, filter_min m df = Ok d.
Proof.
  intros H. unfold filter_min.
  destruct (fgt m (Fin 0) && has_column df "Percentage"); [|now eexists].
  destruct (mapM_total (cell_ge m) (column df "Percentage")) as [mask ->].
  - intros v Hv. apply cell_ge_total.
    unfold numeric_column in H. rewrite Forall_forall in H. now apply H.
  - simpl. now eexists.
Qed.



Lemma bind_Ok_inv {A B : Type} (m : result A) (k : A -> result B) (b : B) :
  bind m k = Ok b -> exists a, m = Ok a /\ k a = Ok b.
Proof. destruct m as [a|e]; simpl; [now exists a | discriminate]. Qed.

Lemma firstn_In {A : Type} (k : nat) (l : list A) (a : A) :
  In a (firstn k l) -> In a l.
Proof.
  revert l. induction k as [|k IH]; intros [|x l]; simpl; try easy.
  intros [->|H]; [now left | right; now apply IH].
Qed.

Lemma head_In {A : Type} (n : Z) (l : list A) (a : A) :
  In a (head n l) -> In a l.
Proof. unfold head. destruct (n <? 0); apply firstn_In. Qed.




Lemma subframe_refl (df : DataFrame) : subframe df df.
Proof. split; [reflexivity | apply incl_refl]. Qed.

Lemma subframe_trans (a b c : DataFrame) :
  subframe a b -> subframe b c -> subframe a c.
Proof.
  intros [H1 H2] [H3 H4]. split; [congruence | now apply incl_tran with (rows b)].
Qed.

Lemma subframe_numeric (d df : DataFrame) :
  subframe d df ->
  numeric_column (column df "Percentage") ->
  numeric_column (column d "Percentage").
Proof.
  intros [Hc Hr]. unfold numeric_column, column.
  rewrite !Forall_map, !Forall_forall, Hc. intros H r Hin. apply H, Hr, Hin.
Qed.

Lemma subframe_has_column (d df : DataFrame) (c : string) :
  subframe d df -> has_column d c = has_column df c.
Proof. intros [Hc _]. unfold has_column. now rewrite Hc. Qed.

Lemma filter_eq_subframe (label : string) (sel : cell) (df : DataFrame) :
  subframe (filter_eq label sel df) df.
Proof.
  rewrite filter_eq_rows. split; [reflexivity|]. simpl. apply incl_filter.
Qed.

Lemma filter_min_subframe (m : float) (df d : DataFrame) :
  filter_min m df = Ok d -> subframe d df.
Proof.
  intros H. apply filter_min_rows in H. subst.
  split; [reflexivity|]. simpl. apply incl_filter.
Qed.

Section FilterFacts.

Context {K : Quicksort}.

Lemma sort_values_rows (df d : DataFrame) :
  sort_values df = Ok d ->
  d = {| columns := columns df;
         rows :=
           qsort (fun r => float_key (cell_at (columns df) "Percentage" r))
                 (filter (fun r => negb (isna (cell_at (columns df) "Percentage" r)))
                         (rows df))
           ++ filter (fun r => isna (cell_at (columns df) "Percentage" r)) (rows df) |}.
Proof.
  unfold sort_values.
  destruct (mapM numeric (column df "Percentage")); simpl; [|discriminate].
  now intros H; injection H as <-.
Qed.

Lemma sort_values_total (df : DataFrame) :
  numeric_column (column df "Percentage") -> exists d, sort_values df = Ok d.
Proof.
  intros H. unfold sort_values.
  destruct (mapM_total numeric (column df "Percentage")) as [ks ->].
  - intros v Hv. apply numeric_total.
    unfold numeric_column in H. rewrite Forall_forall in H. now apply H.
  - simpl. now eexists.
Qed.

Lemma sort_values_subframe (df d : DataFrame) :
  sort_values df = Ok d -> subframe d df.
Proof.
  intros H. apply sort_values_rows in H. subst. split; [reflexivity|]. simpl.
  intros r Hr. apply in_app_or in Hr. destruct Hr as [Hr|Hr].
  - apply (Permutation_in _ (qsort_perm _ _ _)) in Hr.
    now apply filter_In in Hr.
  - now apply filter_In in Hr.
Qed.

Lemma top_n_step_subframe (top_n : option Z) (df d : DataFrame) :
  top_n_step top_n df = Ok d -> subframe d df.
Proof.
  unfold top_n_step.
  destruct (truthy top_n && has_column df "Percentage").
  - intros H. apply bind_Ok_inv in H. destruct H as [sd [Hs H]].
    injection H as <-. apply sort_values_subframe in Hs.
    destruct Hs as [Hc Hr]. split; [exact Hc|]. simpl.
    intros r Hin. apply Hr. now apply head_In in Hin.
  - intros H. injection H as <-. apply subframe_refl.
Qed.

Lemma top_n_step_total (top_n : option Z) (df : DataFrame) :
  numeric_column (column df "Percentage") -> exists d, top_n_step top_n df = Ok d.
Proof.
  intros H. unfold top_n_step.
  destruct (truthy top_n && has_column df "Percentage"); [|now eexists].
  destruct (sort_values_total df H) as [sd ->]. simpl. now eexists.
Qed.

Lemma filter_data_inv (df : DataFrame) (c s : cell) (m : float)
    (top_n : option Z) (d : DataFrame) :
  filter_data df c s m top_n = Ok d ->
  exists d0,
    d0 = {| columns := columns df;
            rows := filter (min_pred (columns df) m)
                      (filter (eq_pred (columns df) "Section" s)
                         (filter (eq_pred (columns df) "Class" c) (rows df))) |} /\
    top_n_step top_n d0 = Ok d.
Proof.
  unfold filter_data. intros H.
  apply bind_Ok_inv in H. destruct H as [d0 [H0 H]].
  apply bind_Ok_inv in H. destruct H as [d1 [H1 H]]. injection H as <-.
  exists d0. split; [|exact H1].
  apply filter_min_rows in H0. rewrite H0, !filter_eq_rows. reflexivity.
Qed.

Lemma filter_data_kept (df : DataFrame) (c s : cell) (m : float)
    (top_n : option Z) (d : DataFrame) :
  filter_data df c s m top_n = Ok d ->
  columns d = columns df /\
  forall r, In r (rows d) -> In r (rows df) /\ kept (columns df) c s m r = true.
Proof.
  intros H. apply filter_data_inv in H. destruct H as [d0 [-> H]].
  apply top_n_step_subframe in H. destruct H as [Hc Hr]. split; [exact Hc|].
  intros r Hin. apply Hr in Hin. simpl in Hin.
  apply filter_In in Hin. destruct Hin as [Hin Hm].
  apply filter_In in Hin. destruct Hin as [Hin Hs].
  apply filter_In in Hin. destruct Hin as [Hin Hcl].
  split; [exact Hin|]. unfold kept. now rewrite Hcl, Hs, Hm.
Qed.

Lemma filter_data_total (df : DataFrame) (c s : cell) (m : float) (top_n : option Z) :
  numeric_column (column df "Percentage") ->
  exists d, filter_data df c s m top_n = Ok d.
Proof.
  intros H. unfold filter_data.
  set (d2 := filter_eq "Section" s (filter_eq "Class" c df)).
  assert (S2 : subframe d2 df).
  { eapply subframe_trans; apply filter_eq_subframe. }
  destruct (filter_min_total m d2) as [d3 H3].
  { now apply (subframe_numeric d2 df). }
  rewrite H3. simpl.
  destruct (top_n_step_total top_n d3) as [d4 ->].
  { apply (subframe_numeric d3 df); [|exact H].
    eapply subframe_trans; [now apply (filter_min_subframe m d2)|exact S2]. }
  simpl. now eexists.
Qed.


End FilterFacts.

(** ** The top-N step *)

Lemma numeric_key_not_nan (v : cell) (o : option float) :
  numeric v = Ok o -> isna v = false -> isnan (float_key v) = false.
Proof.
  destruct v as [[q| | |]|z|s|]; simpl; intros H1 H2;
    try discriminate; reflexivity.
Qed.

Lemma isna_cell_ge (m : float) (v : cell) :
  isna v = true -> cell_ge m v = Ok false.
Proof. destruct v as [[q| | |]|z|s|]; simpl; intros H; try discriminate; reflexivity. Qed.

Lemma present_keys (df : DataFrame) :
  numeric_column (column df "Percentage") ->
  Forall (fun r => isnan (pct_key (columns df) r) = false)
         (filter (present (columns df)) (rows df)).
Proof.
  intros H. unfold numeric_column, column in H.
  rewrite Forall_map, Forall_forall in H. rewrite Forall_forall.
  intros r Hr. apply filter_In in Hr. destruct Hr as [Hin Hp].
  destruct (numeric_total _ (H r Hin)) as [o Ho].
  apply (numeric_key_not_nan _ o Ho). unfold present in Hp.
  now apply negb_true_iff in Hp.
Qed.

Section TopN.

Context {K : Quicksort}.

Lemma top_n_step_active (df : DataFrame) (n : Z) :
  n <> 0 ->
  has_column df "Percentage" = true ->
  numeric_column (column df "Percentage") ->
  top_n_step (Some n) df =
    Ok {| columns := columns df;
          rows := head n (qsort (pct_key (columns df))
                                (filter (present (columns df)) (rows df))
                          ++ filter (missing (columns df)) (rows df)) |}.
Proof.
  intros Hn Hc Hnum. unfold top_n_step. rewrite Hc. simpl.
  destruct (Z.eqb_spec n 0) as [->|_]; [easy|]. simpl.
  destruct (sort_values_total df Hnum) as [sd Hsd]. rewrite Hsd. simpl.
  apply sort_values_rows in Hsd. subst sd. reflexivity.
Qed.

Lemma top_n_step_inactive (df : DataFrame) (top_n : option Z) :
  truthy top_n && has_column df "Percentage" = false ->
  top_n_step top_n df = Ok df.
Proof. intros H. unfold top_n_step. now rewrite H. Qed.


Lemma numeric_Ok_not_text (v : cell) (o : option float) :
  numeric v = Ok o -> is_text v = false.
Proof. destruct v; simpl; intros H; try discriminate; reflexivity. Qed.

(** A column that [sort_values] accepted holds no text. *)
Lemma sort_values_numeric (df d : DataFrame) :
  sort_values df = Ok d -> numeric_column (column df "Percentage").
Proof.
  unfold sort_values. intros H.
  destruct (mapM numeric (column df "Percentage")) as [ks|e] eqn:E;
    [|discriminate].
  apply Forall_forall. intros v Hv.
  destruct (mapM_Ok_In _ _ _ E v Hv) as [o Ho].
  now apply numeric_Ok_not_text in Ho.
Qed.


End TopN.

(** ** Filtering twice *)




Section FilterClaims.

Context {K : Quicksort}.


(** C10. In a dataset with a numeric [Percentage] column, [filter_data]
    with a positive [min_percent] returns no record whose Percentage is
    missing, whatever the other parameters; with [min_percent = 0] (and no
    [top_n]) the same record is returned if the class and section filters
    let it through. *)
Theorem filter_data_min_percent_drops_missing (df : DataFrame) (c s : cell)
    (m : float) (top_n : option Z) (r : list cell) :
  has_column df "Percentage" = true ->
  numeric_column (column df "Percentage") ->
  fgt m (Fin 0) = true ->
  In r (rows df) ->
  isna (cell_at (columns df) "Percentage" r) = true ->
  (exists d, filter_data df c s m top_n = Ok d /\ ~ In r (rows d)) /\
  (eq_pred (columns df) "Class" c r = true ->
   eq_pred (columns df) "Section" s r = true ->
   exists d0, filter_data df c s (Fin 0) None = Ok d0 /\ In r (rows d0)).
Proof.
  intros Hc Hnum Hm Hr Hna. split.
  - destruct (filter_data_total df c s m top_n Hnum) as [d Hd].
    exists d. split; [exact Hd|]. intros Hin.
    apply (filter_data_kept _ _ _ _ _ _ Hd) in Hin. destruct Hin as [_ Hk].
    unfold kept in Hk. apply andb_true_iff in Hk. destruct Hk as [_ Hk].
    unfold min_pred in Hk. unfold has_column in Hc. rewrite Hm, Hc in Hk.
    simpl in Hk. rewrite (isna_cell_ge m _ Hna) in Hk. discriminate.
  - intros Hcl Hs.
    destruct (filter_data_total df c s (Fin 0) None Hnum) as [d0 Hd0].
    exists d0. split; [exact Hd0|].
    apply filter_data_inv in Hd0. destruct Hd0 as [d1 [Hd1 Hd0]].
    rewrite top_n_step_inactive in Hd0 by reflexivity.
    injection Hd0 as <-. subst d1. simpl.
    apply filter_In. split; [|reflexivity].
    apply filter_In. split; [|exact Hs].
    apply filter_In. split; [exact Hr|exact Hcl].
Qed.

End FilterClaims.

(** ** Ties in the top-N step *)

Lemma fgt_feq_false (a b k : float) :
  fgt a b = true -> feq b k = true -> feq a k = false.
Proof.
  destruct a as [a| | |], b as [b| | |], k as [k| | |]; simpl;
    try discriminate; try reflexivity.
  intros H1 H2. apply negb_true_iff, Qle_bool_false in H1.
  apply Qeq_bool_iff in H2.
  destruct (Qeq_bool a k) eqn:E; [|reflexivity].
  apply Qeq_bool_iff in E. rewrite E, H2 in H1. now apply Qlt_irrefl in H1.
Qed.

Lemma insert_by_keeps_ties {A : Type} (key : A -> float) (k : float)
    (x : A) (l : list A) :
  filter (fun a => feq (key a) k) (insert_by key fgt x l) =
  filter (fun a => feq (key a) k) (x :: l).
Proof.
  induction l as [|y l IH]; [reflexivity|].
  simpl. destruct (fgt (key y) (key x)) eqn:E; [|reflexivity].
  simpl. rewrite IH. simpl.
  destruct (feq (key x) k) eqn:Ex; [|reflexivity].
  now rewrite (fgt_feq_false _ _ _ E Ex).
Qed.

(** [stable_sort] is stable: the rows of any one key come out in the order
    they went in. *)
Lemma stable_sort_keeps_ties {A : Type} (key : A -> float) (k : float) (l : list A) :
  filter (fun a => feq (key a) k) (stable_sort key l) =
  filter (fun a => feq (key a) k) l.
Proof.
  unfold stable_sort, insertion_sort.
  induction l as [|x l IH]; [reflexivity|].
  simpl fold_right. rewrite insert_by_keeps_ties. simpl. now rewrite IH.
Qed.


(** With a stable sort and a positive [top_n] the step is what C6 says. *)
Lemma top_n_step_stable (K : Quicksort) (df : DataFrame) (n : Z) :
  Stable K ->
  0 < n ->
  has_column df "Percentage" = true ->
  numeric_column (column df "Percentage") ->
  top_n_step (K := K) (Some n) df = Ok (stable_top_n n df).
Proof.
  intros Hst Hn Hc Hnum. rewrite top_n_step_active by (try lia; assumption).
  unfold stable_top_n, head. destruct (Z.ltb_spec n 0); [lia|].
  now rewrite Hst.
Qed.






Lemma filter_data_min_percent_drops_missing_witness :
  (exists d,
     filter_data (K := stable_quicksort) gappy_dataset
       (CStr "All") (CStr "All") (Fin 1) None = Ok d /\
     ~ In [CStr "Bob"; CFloat NaN] (rows d)) /\
  (eq_pred (columns gappy_dataset) "Class" (CStr "All") [CStr "Bob"; CFloat NaN] = true ->
   eq_pred (columns gappy_dataset) "Section" (CStr "All") [CStr "Bob"; CFloat NaN] = true ->
   exists d0,
     filter_data (K := stable_quicksort) gappy_dataset
       (CStr "All") (CStr "All") (Fin 0) None = Ok d0 /\
     In [CStr "Bob"; CFloat NaN] (rows d0)).
Proof.
  apply (filter_data_min_percent_drops_missing (K := stable_quicksort)
           gappy_dataset (CStr "All") (CStr "All") (Fin 1) None
           [CStr "Bob"; CFloat NaN]).
  - reflexivity.
  - repeat constructor.
  - reflexivity.
  - simpl. right. left. reflexivity.
  - reflexivity.
Defined.

(** ** Frames: reading back what was written *)

Lemma eqb_has_column (df : DataFrame) (k : string) :
  has_column df k = existsb (fun c => String.eqb c k) (columns df).
Proof.
  unfold has_column. induction (columns df) as [|c cols IH]; simpl; [reflexivity|].
  now rewrite IH, String.eqb_sym.
Qed.

Lemma cells_at_absent (cols : list string) (r : list cell) (k : string) :
  existsb (fun c => String.eqb c k) cols = false -> cells_at cols r k = [].
Proof.
  revert r. induction cols as [|c cols IH]; intros r H; [reflexivity|].
  simpl in H. apply orb_false_iff in H. destruct H as [Hc H].
  destruct r as [|v r]; [reflexivity|]. simpl. rewrite Hc. now apply IH.
Qed.

Lemma cells_at_present (cols : list string) (r : list cell) (k : string) :
  length r = length cols ->
  existsb (fun c => String.eqb c k) cols = true -> cells_at cols r k <> [].
Proof.
  revert r. induction cols as [|c cols IH]; intros r Hlen H; [discriminate|].
  destruct r as [|v r]; [discriminate|]. simpl in *.
  destruct (String.eqb c k); [discriminate|].
  apply IH; [lia | exact H].
Qed.

Lemma cells_at_app (cols : list string) (r : list cell) (k' k : string) (v : cell) :
  length r = length cols ->
  cells_at (cols ++ [k']) (r ++ [v]) k =
  cells_at cols r k ++ (if String.eqb k' k then [v] else []).
Proof.
  revert r. induction cols as [|c cols IH]; intros [|x r] Hlen;
    try discriminate; simpl.
  - now destruct (String.eqb k' k).
  - simpl in Hlen. rewrite IH by lia. now destruct (String.eqb c k).
Qed.

Lemma replace_at_length (cols : list string) (k : string) (v : cell) (r : list cell) :
  length (replace_at cols k v r) = length r.
Proof.
  revert r. induction cols as [|c cols IH]; intros [|x r]; simpl; try reflexivity.
  now rewrite IH.
Qed.

Lemma cells_at_replace_same (cols : list string) (k : string) (v : cell) (r : list cell) :
  cells_at cols (replace_at cols k v r) k = map (fun _ => v) (cells_at cols r k).
Proof.
  revert r. induction cols as [|c cols IH]; intros [|x r]; simpl; try reflexivity.
  destruct (String.eqb c k); simpl; now rewrite IH.
Qed.

Lemma cells_at_replace_other (cols : list string) (k k' : string) (v : cell)
    (r : list cell) :
  String.eqb k' k = false ->
  cells_at cols (replace_at cols k' v r) k = cells_at cols r k.
Proof.
  intros Hk. revert r.
  induction cols as [|c cols IH]; intros [|x r]; simpl; try reflexivity.
  destruct (String.eqb c k) eqn:Ec.
  - apply String.eqb_eq in Ec. subst c. rewrite String.eqb_sym, Hk.
    now rewrite IH.
  - now rewrite IH.
Qed.

Lemma wf_setitem (k : string) (values : list cell) (df : DataFrame) :
  wf df -> wf (setitem k values df).
Proof.
  unfold wf, setitem. intros H.
  destruct (has_column df k); simpl; rewrite Forall_map, Forall_forall;
    intros [r v] Hin; apply in_combine_l in Hin;
    rewrite Forall_forall in H; specialize (H r Hin); simpl.
  - now rewrite replace_at_length.
  - rewrite !length_app. simpl. lia.
Qed.

Lemma len_setitem (k : string) (values : list cell) (df : DataFrame) :
  length values = len df -> len (setitem k values df) = len df.
Proof.
  intros H. unfold len, setitem in *.
  destruct (has_column df k); simpl;
    rewrite length_map, length_combine; lia.
Qed.

(** Reading the column that was just assigned gives the assigned values. *)
Lemma column_setitem_same (k : string) (values : list cell) (df : DataFrame) :
  wf df -> length values = len df -> column (setitem k values df) k = values.
Proof.
  intros Hwf Hlen. unfold column, setitem.
  destruct (has_column df k) eqn:Hk; simpl.
  - apply map_combine_snd; [exact Hlen|].
    intros r v Hr. unfold cell_at. simpl. rewrite cells_at_replace_same.
    unfold wf in Hwf. rewrite Forall_forall in Hwf.
    rewrite eqb_has_column in Hk.
    pose proof (cells_at_present _ r k (Hwf r Hr) Hk) as Hne.
    destruct (cells_at (columns df) r k); [easy|reflexivity].
  - apply map_combine_snd; [exact Hlen|].
    intros r v Hr. unfold cell_at. simpl.
    unfold wf in Hwf. rewrite Forall_forall in Hwf.
    rewrite cells_at_app by (now apply Hwf).
    rewrite eqb_has_column in Hk. rewrite (cells_at_absent _ _ _ Hk).
    now rewrite String.eqb_refl.
Qed.

(** Assigning one column leaves the others as they were. *)
Lemma column_setitem_other (k k' : string) (values : list cell) (df : DataFrame) :
  wf df -> length values = len df -> String.eqb k' k = false ->
  column (setitem k' values df) k = column df k.
Proof.
  intros Hwf Hlen Hkk. unfold column, setitem.
  destruct (has_column df k') eqn:Hk; simpl.
  - apply map_combine_fst; [exact Hlen|].
    intros r v Hr. unfold cell_at. simpl.
    now rewrite cells_at_replace_other.
  - apply map_combine_fst; [exact Hlen|].
    intros r v Hr. unfold cell_at. simpl.
    unfold wf in Hwf. rewrite Forall_forall in Hwf.
    rewrite cells_at_app by (now apply Hwf).
    rewrite Hkk. now rewrite app_nil_r.
Qed.

(** ** Rounding and truncation on rationals *)

Lemma round2_Fin (q : Q) : round2 (Fin q) = Fin (round_2dp q).
Proof. reflexivity. Qed.

Lemma rint_comp (a b : Q) : (a == b)%Q -> rint a = rint b.
Proof.
  intros H. unfold rint. rewrite (Qfloor_comp _ _ H).
  assert (E : (a - inject_Z (Qfloor b) ?= 1 # 2)%Q = (b - inject_Z (Qfloor b) ?= 1 # 2)%Q).
  { apply Qcompare_comp; [now rewrite H | reflexivity]. }
  now rewrite E.
Qed.

Lemma round_2dp_comp (a b : Q) : (a == b)%Q -> round_2dp a = round_2dp b.
Proof.
  intros H. unfold round_2dp. f_equal. f_equal. f_equal.
  apply rint_comp. now rewrite H.
Qed.

Lemma trunc_comp (a b : Q) : (a == b)%Q -> trunc a = trunc b.
Proof.
  intros H. unfold trunc.
  rewrite (Qleb_comp 0%Q 0%Q (Qeq_refl 0%Q) a b H).
  now rewrite (Qfloor_comp _ _ H), (Qceiling_comp _ _ H).
Qed.

(** [rint] stays between integer bounds. *)
Lemma rint_bounds (q : Q) (a b : Z) :
  (inject_Z a <= q)%Q -> (q <= inject_Z b)%Q -> a <= rint q <= b.
Proof.
  intros Ha Hb.
  assert (Hfa : a <= Qfloor q).
  { rewrite <- (Qfloor_Z a). now apply Qfloor_resp_le. }
  assert (Hfq : (inject_Z (Qfloor q) <= q)%Q) by apply Qfloor_le.
  assert (Hfb : Qfloor q <= b).
  { rewrite Zle_Qle. now apply Qle_trans with q. }
  unfold rint.
  destruct (Qcompare (q - inject_Z (Qfloor q)) (1 # 2)) eqn:E.
  - destruct (Z.even (Qfloor q)); [lia|].
    apply Qeq_alt in E.
    assert (Hlt : (inject_Z (Qfloor q) < inject_Z b)%Q) by lra.
    rewrite <- Zlt_Qlt in Hlt. lia.
  - lia.
  - apply Qgt_alt in E.
    assert (Hlt : (inject_Z (Qfloor q) < inject_Z b)%Q) by lra.
    rewrite <- Zlt_Qlt in Hlt. lia.
Qed.

Lemma round_2dp_range (q : Q) :
  (0 <= q)%Q -> (q <= 100)%Q -> (0 <= round_2dp q)%Q /\ (round_2dp q <= 100)%Q.
Proof.
  intros H0 H100. unfold round_2dp. rewrite Qred_correct.
  destruct (rint_bounds (q * 100) 0 10000) as [Hl Hu].
  - change (inject_Z 0) with 0%Q. lra.
  - change (inject_Z 10000) with 10000%Q. lra.
  - rewrite Zle_Qle in Hl, Hu.
    change (inject_Z 0) with 0%Q in Hl.
    change (inject_Z 10000) with 10000%Q in Hu.
    split.
    + apply Qle_shift_div_l; [reflexivity|]. now rewrite Qmult_0_l.
    + apply Qle_shift_div_r; [reflexivity|]. exact Hu.
Qed.

(** ** Scores: the numbers in the subject cells *)


Lemma fadd_Qred (a s : Q) : fadd (Fin a) (Fin (Qred s)) = Fin (Qred (a + s)).
Proof.
  unfold fadd. f_equal. apply Qred_complete. now rewrite Qred_correct.
Qed.

Lemma sum_skipna_values (l : list cell) :
  Forall valid l -> sum_skipna l = Ok (Fin (Qred (Qsum (values l)))).
Proof.
  induction 1 as [|v l Hv Hl IH]; [reflexivity|].
  cbn [sum_skipna values]. rewrite IH.
  destruct Hv as [Hna|[q Hq]].
  - destruct v as [[x| | |]|z|s|]; try discriminate; reflexivity.
  - destruct v as [[x| | |]|z|s|]; try discriminate;
      cbn [score] in Hq; injection Hq as <-;
      cbn [numeric bind score]; unfold of_Z;
      now rewrite fadd_Qred.
Qed.





(** ** The loop that adds the absent subject columns *)

Lemma setitem_scalar_absent (s : string) (v : cell) (df : DataFrame) :
  has_column df s = false ->
  setitem_scalar s v df =
    {| columns := columns df ++ [s]; rows := map (fun r => r ++ [v]) (rows df) |}.
Proof.
  intros H. unfold setitem_scalar, setitem, len. rewrite H. f_equal.
  induction (rows df) as [|r l IH]; [reflexivity|].
  simpl. now rewrite IH.
Qed.

(** An invariant of the frame survives the loop if it survives the
    addition of one absent column of zeros. *)
Lemma add_missing_ind (P : DataFrame -> Prop) (keys : list string) (df : DataFrame) :
  (forall d s, P d -> has_column d s = false ->
               P {| columns := columns d ++ [s];
                    rows := map (fun r => r ++ [CFloat (Fin 0)]) (rows d) |}) ->
  P df -> P (add_missing df keys).
Proof.
  intros Hstep. unfold add_missing. revert df.
  induction keys as [|s keys IH]; intros df H; [exact H|].
  simpl. apply IH. destruct (has_column df s) eqn:E; simpl; [exact H|].
  rewrite setitem_scalar_absent by exact E. now apply Hstep.
Qed.

Lemma has_column_In (df : DataFrame) (k : string) :
  has_column df k = true <-> In k (columns df).
Proof.
  unfold has_column. rewrite existsb_exists. split.
  - intros [c [Hc E]]. apply String.eqb_eq in E. now subst.
  - intros H. exists k. split; [exact H | apply String.eqb_refl].
Qed.

Lemma add_missing_keeps (keys : list string) (df : DataFrame) (k : string) :
  In k (columns df) -> In k (columns (add_missing df keys)).
Proof.
  intros H. apply (add_missing_ind (fun d => In k (columns d))); [|exact H].
  intros d s Hd _. simpl. apply in_or_app. now left.
Qed.

Lemma add_missing_all_present (keys : list string) (df : DataFrame) (k : string) :
  In k keys -> In k (columns (add_missing df keys)).
Proof.
  revert df. induction keys as [|s keys IH]; intros df Hk; [easy|].
  change (add_missing df (s :: keys)) with
    (add_missing (if negb (has_column df s)
                  then setitem_scalar s (CFloat (Fin 0)) df else df) keys).
  destruct Hk as [->|Hk]; [|now apply IH].
  apply add_missing_keeps.
  destruct (has_column df k) eqn:E; simpl.
  - now apply has_column_In.
  - rewrite setitem_scalar_absent by exact E. simpl.
    apply in_or_app. right. now left.
Qed.

Lemma add_missing_wf (keys : list string) (df : DataFrame) :
  wf df -> wf (add_missing df keys).
Proof.
  apply add_missing_ind. intros d s Hd _. unfold wf in *. simpl.
  rewrite Forall_map. eapply Forall_impl; [|exact Hd].
  intros r Hr. cbv beta in Hr. simpl. rewrite !length_app. simpl. lia.
Qed.

Lemma add_missing_NoDup (keys : list string) (df : DataFrame) :
  NoDup (columns df) -> NoDup (columns (add_missing df keys)).
Proof.
  apply (add_missing_ind (fun d => NoDup (columns d))).
  intros d s Hd Hs. simpl.
  apply (Permutation_NoDup (l := s :: columns d)).
  - apply Permutation_cons_append.
  - constructor; [|exact Hd]. intros Hin. apply has_column_In in Hin. congruence.
Qed.

(** A property of the cells under the subject labels that holds of the
    input frame and of 0.0 holds of the frame after the loop. *)
Lemma add_missing_cells (P : cell -> Prop) (keys : list string) (df : DataFrame) :
  P (CFloat (Fin 0)) ->
  wf df ->
  (forall r k v, In r (rows df) -> In k keys ->
                 In v (cells_at (columns df) r k) -> P v) ->
  forall r k v, In r (rows (add_missing df keys)) -> In k keys ->
                In v (cells_at (columns (add_missing df keys)) r k) -> P v.
Proof.
  intros H0 Hwf H.
  set (ks := keys) at 1 3.
  assert (G : wf (add_missing df keys) /\
              forall r k v, In r (rows (add_missing df keys)) -> In k ks ->
                In v (cells_at (columns (add_missing df keys)) r k) -> P v).
  { apply (add_missing_ind
             (fun d => wf d /\ forall r k v, In r (rows d) -> In k ks ->
                          In v (cells_at (columns d) r k) -> P v)).
    - intros d s [Hd Hc] _. split.
      + unfold wf in *. simpl. rewrite Forall_map.
        eapply Forall_impl; [|exact Hd].
        intros r Hr. cbv beta in Hr. simpl. rewrite !length_app. simpl. lia.
      + simpl. intros r' k v Hr' Hk Hv.
        apply in_map_iff in Hr'. destruct Hr' as [r [<- Hr]].
        unfold wf in Hd. rewrite Forall_forall in Hd.
        rewrite cells_at_app in Hv by (now apply Hd).
        apply in_app_or in Hv. destruct Hv as [Hv|Hv].
        * now apply (Hc r k).
        * destruct (String.eqb s k); [|easy].
          destruct Hv as [<-|[]]. exact H0.
    - split; [exact Hwf | exact H]. }
  exact (proj2 G).
Qed.

Lemma cells_at_NoDup (cols : list string) (r : list cell) (k : string) :
  NoDup cols -> length r = length cols -> In k cols ->
  length (cells_at cols r k) = 1%nat.
Proof.
  intros Hnd. revert r. induction Hnd as [|c cols Hc Hnd IH]; intros r Hlen Hk; [easy|].
  destruct r as [|v r]; [discriminate|]. simpl in *.
  destruct (String.eqb c k) eqn:E.
  - apply String.eqb_eq in E. subst c. simpl. f_equal.
    rewrite cells_at_absent; [reflexivity|].
    destruct (existsb (fun c => String.eqb c k) cols) eqn:Ex; [|reflexivity].
    apply existsb_exists in Ex. destruct Ex as [c [Hin Ec]].
    apply String.eqb_eq in Ec. now subst.
  - apply IH; [lia|]. destruct Hk as [->|Hk]; [|exact Hk].
    now rewrite String.eqb_refl in E.
Qed.

(** With distinct labels a selection holds one cell per key. *)
Lemma select_row_length (cols keys : list string) (r : list cell) :
  NoDup cols -> length r = length cols -> (forall k, In k keys -> In k cols) ->
  length (select_row cols keys r) = length keys.
Proof.
  intros Hnd Hlen. unfold select_row.
  induction keys as [|k keys IH]; intros H; [reflexivity|].
  simpl. rewrite length_app, IH by (intros k' Hk'; apply H; now right).
  rewrite cells_at_NoDup; [reflexivity|exact Hnd|exact Hlen|].
  apply H. now left.
Qed.

Lemma select_row_Forall (P : cell -> Prop) (cols keys : list string) (r : list cell) :
  (forall k v, In k keys -> In v (cells_at cols r k) -> P v) ->
  Forall P (select_row cols keys r).
Proof.
  intros H. unfold select_row. apply Forall_forall. intros v Hv.
  apply in_flat_map in Hv. destruct Hv as [k [Hk Hv]]. now apply (H k).
Qed.

Lemma getitem_add_missing (df : DataFrame) (keys : list string) :
  getitem (add_missing df keys) keys =
    Ok (map (select_row (columns (add_missing df keys)) keys)
            (rows (add_missing df keys))).
Proof.
  unfold getitem.
  replace (forallb (has_column (add_missing df keys)) keys) with true; [reflexivity|].
  symmetry. apply forallb_forall. intros k Hk.
  apply has_column_In. now apply add_missing_all_present.
Qed.

(** ** What [compute_student_aggregates] writes *)

Lemma mapM_astype_int (totals : list Q) :
  mapM astype_int (map Fin totals) = Ok (map (fun q => CInt (trunc q)) totals).
Proof.
  induction totals as [|q l IH]; [reflexivity|].
  simpl. rewrite IH. reflexivity.
Qed.

Lemma column_length (df : DataFrame) (k : string) : length (column df k) = len df.
Proof. unfold column, len. apply length_map. Qed.

Lemma aggregates_columns (df : DataFrame) (keys : list string) (tmz : bool)
    (totals : list Q) (pcts : list float) :
  wf df ->
  length totals = len (add_missing df keys) ->
  length pcts = len (add_missing df keys) ->
  (if tmz then zero_fill (add_missing df keys) keys
   else skip_missing (add_missing df keys) keys) = Ok (map Fin totals, pcts) ->
  exists d,
    compute_student_aggregates df keys tmz = Ok d /\
    column d "Total" = map (fun q => CInt (trunc q)) totals /\
    column d "Percentage" = map (fun p => CFloat (round2 p)) pcts /\
    column d "Grade" =
      map (fun p => CStr (grade_from_percentage (CFloat (round2 p)))) pcts.
Proof.
  intros Hwf Ht Hp H. unfold compute_student_aggregates. cbv zeta.
  rewrite H. cbn [bind fst snd]. rewrite mapM_astype_int. cbn [bind].
  set (df1 := add_missing df keys) in *.
  set (T := map (fun q => CInt (trunc q)) totals).
  set (P := map (fun p => CFloat (round2 p)) pcts).
  set (d1 := setitem "Total" T df1).
  set (d2 := setitem "Percentage" P d1).
  assert (W1 : wf df1) by (now apply add_missing_wf).
  assert (LT : length T = len df1) by (unfold T; now rewrite length_map).
  assert (L1 : len d1 = len df1) by (now apply len_setitem).
  assert (LP : length P = len d1) by (unfold P; rewrite length_map; congruence).
  assert (W2 : wf d1) by (now apply wf_setitem).
  assert (L2 : len d2 = len d1) by (now apply len_setitem).
  assert (W3 : wf d2) by (now apply wf_setitem).
  assert (C2 : column d2 "Percentage" = P) by (now apply column_setitem_same).
  eexists. split; [reflexivity|].
  assert (LG : length (map (fun p => CStr (grade_from_percentage p))
                           (column d2 "Percentage")) = len d2).
  { now rewrite length_map, column_length. }
  repeat split.
  - rewrite column_setitem_other by (try reflexivity; assumption).
    unfold d2. rewrite column_setitem_other by (try reflexivity; assumption).
    now apply column_setitem_same.
  - rewrite column_setitem_other by (try reflexivity; assumption). exact C2.
  - rewrite column_setitem_same by assumption.
    rewrite C2. unfold P. now rewrite map_map.
Qed.

Lemma combine_map_same {A B C : Type} (f : A -> B) (g : A -> C) (l : list A) :
  combine (map f l) (map g l) = map (fun a => (f a, g a)) l.
Proof. induction l as [|a l IH]; simpl; [reflexivity | now rewrite IH]. Qed.

Lemma scale_round (S : Q) (d : Z) :
  d <> 0 ->
  round2 (fmul_int (fdiv_int (Fin (Qred S)) d) 100) = Fin (percent_of S d).
Proof.
  intros Hd. unfold fdiv_int. destruct (Z.eqb_spec d 0) as [E|_]; [easy|].
  cbn [fmul_int]. rewrite round2_Fin. f_equal. unfold percent_of.
  apply round_2dp_comp. rewrite !Qred_correct. reflexivity.
Qed.

Lemma percent_of_range (S : Q) (d : Z) :
  0 < d -> (0 <= S)%Q -> (S <= inject_Z d)%Q ->
  (0 <= percent_of S d)%Q /\ (percent_of S d <= 100)%Q.
Proof.
  intros Hd H0 H1. unfold percent_of.
  assert (HD : (0 < inject_Z d)%Q).
  { change 0%Q with (inject_Z 0). now rewrite <- Zlt_Qlt. }
  assert (Ha : (0 <= S / inject_Z d)%Q).
  { apply Qle_shift_div_l; [exact HD|]. now rewrite Qmult_0_l. }
  assert (Hb : (S / inject_Z d <= 1)%Q).
  { apply Qle_shift_div_r; [exact HD|]. now rewrite Qmult_1_l. }
  generalize dependent (S / inject_Z d)%Q. intros x Ha Hb.
  apply round_2dp_range; lra.
Qed.

(** The two branches on a frame whose subject cells are numbers. *)
Lemma skip_missing_valid (df : DataFrame) (keys : list string) :
  Forall (Forall valid) (subject_cells df keys) ->
  skip_missing (add_missing df keys) keys =
    Ok (map Fin (map (fun cells => Qred (Qsum (values cells))) (subject_cells df keys)),
        map (fun cells =>
               let p := fmul_int (fdiv_int (Fin (Qred (Qsum (values cells))))
                                           (count cells * 100)) 100 in
               if isnan p then Fin 0 else p)
            (subject_cells df keys)).
Proof.
  intros H. unfold skip_missing. rewrite getitem_add_missing. cbn [bind].
  fold (subject_cells df keys).
  rewrite (mapM_map sum_skipna (fun cells => Fin (Qred (Qsum (values cells))))).
  - cbn [bind]. rewrite combine_map_same, !map_map. reflexivity.
  - intros cells Hin. rewrite Forall_forall in H.
    now apply sum_skipna_values, H.
Qed.

Lemma zero_fill_valid (df : DataFrame) (keys : list string) :
  Forall (Forall valid) (subject_cells df keys) ->
  zero_fill (add_missing df keys) keys =
    Ok (map Fin (map (fun cells =>
                        Qred (Qsum (values (map (fillna (CFloat (Fin 0))) cells))))
                     (subject_cells df keys)),
        map (fun cells =>
               fmul_int
                 (fdiv_int
                    (Fin (Qred (Qsum (values (map (fillna (CFloat (Fin 0))) cells)))))
                    (100 * Z.of_nat (length keys))) 100)
            (subject_cells df keys)).
Proof.
  intros H. unfold zero_fill. rewrite getitem_add_missing. cbn [bind].
  fold (subject_cells df keys).
  rewrite (mapM_map sum_skipna
             (fun cells => Fin (Qred (Qsum (values cells))))).
  - cbn [bind]. rewrite !map_map. reflexivity.
  - intros cells Hin. apply in_map_iff in Hin. destruct Hin as [c0 [<- Hc0]].
    apply sum_skipna_values. rewrite Forall_map.
    rewrite Forall_forall in H. eapply Forall_impl; [|exact (H c0 Hc0)].
    intros v Hv. unfold fillna. destruct (isna v) eqn:E; [|exact Hv].
    right. now exists 0%Q.
Qed.

Lemma subject_cells_length (df : DataFrame) (keys : list string) :
  length (subject_cells df keys) = len (add_missing df keys).
Proof. unfold subject_cells, len. apply length_map. Qed.

Lemma subject_cells_Forall (P : cell -> Prop) (df : DataFrame) (keys : list string) :
  P (CFloat (Fin 0)) ->
  wf df ->
  (forall r k v, In r (rows df) -> In k keys ->
                 In v (cells_at (columns df) r k) -> P v) ->
  Forall (Forall P) (subject_cells df keys).
Proof.
  intros H0 Hwf H. unfold subject_cells. rewrite Forall_map, Forall_forall.
  intros r Hr. apply select_row_Forall. intros k v Hk Hv.
  now apply (add_missing_cells P keys df H0 Hwf H r k v).
Qed.


(** Every exception of the aggregator is one of these three. *)
Lemma sum_skipna_Raise (l : list cell) (e : exn) :
  sum_skipna l = Raise e -> e = TypeError.
Proof.
  induction l as [|v l IH]; [discriminate|].
  simpl. destruct v as [[x| | |]|z|s|]; simpl;
    destruct (sum_skipna l) as [t|e']; simpl; try discriminate;
    intros H; injection H as <-; try reflexivity; now apply IH.
Qed.







(** A fractional sum is cut to its integer part in Total. *)
Lemma skip_missing_truncates_total :
  compute_student_aggregates
    {| columns := ["Math"]%string; rows := [ [CFloat (Fin 80.5)] ] |}
    ["Math"]%string false =
    Ok {| columns := ["Math"; "Total"; "Percentage"; "Grade"]%string;
          rows := [ [CFloat (Fin 80.5); CInt 80; CFloat (Fin (161 # 2)); CStr "A"] ] |}.
Proof. vm_compute. reflexivity. Qed.



(** ** Percentages stay within 0 and 100 *)





(** Field names that repeat are outside the statement above: with two
    columns labelled [Math] the selection [df[["Math"]]] holds both, while
    the maximum counts one subject, and the zero-fill Percentage of two
    full scores is 200. *)
Lemma repeated_label_percentage :
  compute_student_aggregates
    {| columns := ["Math"; "Math"]%string; rows := [ [CInt 100; CInt 100] ] |}
    ["Math"]%string true =
    Ok {| columns := ["Math"; "Math"; "Total"; "Percentage"; "Grade"]%string;
          rows := [ [CInt 100; CInt 100; CInt 200; CFloat (Fin 200); CStr "A+"] ] |}.
Proof. vm_compute. reflexivity. Qed.

(** Such a frame comes out of [load_data] when two labels of the header
    differ by surrounding blanks only. *)
Lemma load_data_merges_labels :
  load_data {| columns := ["StudentID"; "Name"; "Math"; " Math"]%string;
               rows := [ [CInt 1; CStr "Ann"; CInt 100; CInt 100] ] |} =
    Ok {| columns := ["StudentID"; "Name"; "Math"; "Math"]%string;
          rows := [ [CInt 1; CStr "Ann"; CInt 100; CInt 100] ] |}.
Proof. reflexivity. Qed.

(** ** What [load_data] does hold *)

Lemma number_rows_seq (s : nat) (l : list (list cell)) :
  map (fun rv => insert_at 1 (snd rv) (fst rv))
      (combine
         (map (fun rv => insert_at 0 (snd rv) (fst rv))
              (combine l (map CInt (map Z.of_nat (seq s (length l))))))
         (map (fun i => CStr ("Student " ++ str_of_Z i))
              (map Z.of_nat (seq s (length l)))))
  = number_rows (Z.of_nat s) l.
Proof.
  revert s. induction l as [|r l IH]; intros s; [reflexivity|].
  simpl. f_equal. rewrite IH. f_equal. lia.
Qed.

(** X3. When the header has neither identity label, [load_data] numbers
    the records from 1 in input order, names them [Student i] with the same
    number, puts the two new columns first and strips every label. *)
Lemma load_data_synthesizes_identity (parsed : DataFrame) :
  has_column parsed "StudentID" = false ->
  has_column parsed "Name" = false ->
  load_data parsed =
    Ok {| columns := "StudentID"%string :: "Name"%string :: map strip (columns parsed);
          rows := number_rows 1 (rows parsed) |}.
Proof.
  intros Hid Hname. unfold load_data. rewrite Hid. cbn [negb].
  rewrite insert_ok;
    [| exact Hid | lia | now rewrite length_map, range1_length].
  cbn [bind].
  match goal with
  | |- context [has_column ?d "Name"] =>
      assert (Hn : has_column d "Name" = false)
  end.
  { unfold has_column in *. simpl. exact Hname. }
  rewrite Hn. cbn [negb].
  rewrite insert_ok; [| exact Hn | simpl; lia |].
  - cbn [bind columns rows]. f_equal. f_equal.
    unfold len, range1. cbn [rows].
    match goal with
    | |- context [seq 1 (length (map ?f ?l))] =>
        replace (length (map f l)) with (length (rows parsed))
    end.
    + apply (number_rows_seq 1).
    + repeat (rewrite ?length_map, ?length_combine, ?length_seq). lia.
  - unfold len, range1. cbn [rows].
    repeat (rewrite ?length_map, ?length_combine, ?length_seq). lia.
Qed.

(** ** Loading what was loaded *)

Lemma lstrip_idempotent (l : list ascii) : lstrip (lstrip l) = lstrip l.
Proof.
  induction l as [|c l IH]; [reflexivity|].
  simpl. destruct (is_space c) eqn:E; [exact IH|]. simpl. now rewrite E.
Qed.

Lemma lstrip_keeps_last (x : list ascii) (c : ascii) :
  is_space c = false -> exists y, lstrip (x ++ [c]) = y ++ [c].
Proof.
  intros Hc. induction x as [|a x [y IH]]; simpl.
  - rewrite Hc. now exists [].
  - destruct (is_space a); [now exists y | now exists (a :: x)].
Qed.

Lemma lstrip_rstrip (l : list ascii) : lstrip (rstrip (lstrip l)) = rstrip (lstrip l).
Proof.
  unfold rstrip.
  destruct (lstrip l) as [|c m] eqn:E; [reflexivity|].
  assert (Hc : is_space c = false).
  { clear -E. induction l as [|a l IH]; [discriminate|].
    simpl in E. destruct (is_space a) eqn:Ea; [now apply IH|].
    now injection E as <- _. }
  simpl rev. destruct (lstrip_keeps_last (rev m) c Hc) as [y ->].
  rewrite rev_app_distr. simpl. now rewrite Hc.
Qed.

Lemma strip_chars_idempotent (l : list ascii) :
  strip_chars (strip_chars l) = strip_chars l.
Proof.
  unfold strip_chars. rewrite lstrip_rstrip. unfold rstrip.
  now rewrite rev_involutive, lstrip_idempotent.
Qed.

Lemma strip_idempotent (s : string) : strip (strip s) = strip s.
Proof.
  unfold strip. rewrite list_ascii_of_string_of_list_ascii.
  now rewrite strip_chars_idempotent.
Qed.

(** X4. The part of a reload that is [load_data]'s own: applied to a frame
    it returned, [load_data] returns it again.  (Whether the CSV text that
    pandas writes is read back by pandas as the same frame is not covered
    by this.) *)
Lemma load_data_idempotent (parsed df : DataFrame) :
  load_data parsed = Ok df -> load_data df = Ok df.
Proof.
  unfold load_data. intros H.
  apply bind_Ok_inv in H. destruct H as [d1 [H1 H]].
  apply bind_Ok_inv in H. destruct H as [d2 [H2 H]]. injection H as <-.
  assert (Hname : In "Name"%string (columns d2)).
  { destruct (has_column d1 "Name") eqn:E; simpl in H2.
    - injection H2 as <-. now apply has_column_In.
    - unfold insert in H2. rewrite E in H2.
      destruct (length (columns d1) <? 1)%nat; [discriminate|].
      destruct (negb (length _ =? len d1)%nat); [discriminate|].
      injection H2 as <-. simpl.
      destruct (columns d1); simpl; auto. }
  assert (Hid : In "StudentID"%string (columns d2)).
  { assert (H1' : In "StudentID"%string (columns d1)).
    { destruct (has_column parsed "StudentID") eqn:E; simpl in H1.
      - injection H1 as <-. now apply has_column_In.
      - unfold insert in H1. rewrite E in H1. simpl in H1.
        destruct (negb (length _ =? len parsed)%nat); [discriminate|].
        injection H1 as <-. simpl. now left. }
    destruct (has_column d1 "Name") eqn:E; simpl in H2.
    - now injection H2 as <-.
    - unfold insert in H2. rewrite E in H2.
      destruct (length (columns d1) <? 1)%nat; [discriminate|].
      destruct (negb (length _ =? len d1)%nat); [discriminate|].
      injection H2 as <-. simpl.
      destruct (columns d1) as [|c cs]; [easy|]. simpl in *.
      destruct H1' as [->|H1']; auto. }
  assert (G1 : has_column {| columns := map strip (columns d2); rows := rows d2 |}
                 "StudentID" = true).
  { apply has_column_In. simpl.
    change "StudentID"%string with (strip "StudentID"). now apply in_map. }
  assert (G2 : has_column {| columns := map strip (columns d2); rows := rows d2 |}
                 "Name" = true).
  { apply has_column_In. simpl.
    change "Name"%string with (strip "Name"). now apply in_map. }
  rewrite G1. cbn [negb bind]. rewrite G2. cbn [negb bind columns rows].
  f_equal. f_equal. rewrite map_map. apply map_ext. intros s. apply strip_idempotent.
Qed.

(** * Further properties of the code *)

(** ** [load_data]: what every loaded frame has *)

Lemma insert_at_length {A : Type} (loc : nat) (a : A) (l : list A) :
  length (insert_at loc a l) = S (length l).
Proof.
  revert l. induction loc as [|n IH]; intros l; [reflexivity|].
  destruct l as [|x l]; simpl; [reflexivity | now rewrite IH].
Qed.

Lemma insert_at_In {A : Type} (loc : nat) (a : A) (l : list A) (x : A) :
  In x (insert_at loc a l) <-> x = a \/ In x l.
Proof.
  revert l. induction loc as [|n IH]; intros l.
  - simpl. split; intros [H|H]; auto.
  - destruct l as [|y l]; simpl.
    + split; intros [H|H]; auto.
    + rewrite IH. tauto.
Qed.

(** What a successful [insert] leaves: the rows keep their number, a
    rectangular frame stays rectangular, the label is there and no label
    is lost. *)
Lemma insert_shape (loc : nat) (c : string) (values : list cell) (df d : DataFrame) :
  insert loc c values df = Ok d ->
  len d = len df /\ (wf df -> wf d) /\
  (forall k, In k (columns d) <-> k = c \/ In k (columns df)).
Proof.
  unfold insert. destruct (has_column df c); [discriminate|].
  destruct (length (columns df) <? loc)%nat; [discriminate|].
  destruct (length values =? len df)%nat eqn:E; [|discriminate].
  apply Nat.eqb_eq in E. simpl. intros H. injection H as <-.
  split; [|split].
  - unfold len in *. simpl. rewrite length_map, length_combine. lia.
  - unfold wf. simpl. intros W. rewrite Forall_map, Forall_forall.
    intros [r v] Hin. apply in_combine_l in Hin. rewrite Forall_forall in W.
    simpl. rewrite !insert_at_length. f_equal. now apply W.
  - intros k. simpl. apply insert_at_In.
Qed.

Lemma load_data_shape (parsed df : DataFrame) :
  load_data parsed = Ok df ->
  exists d2,
    df = {| columns := map strip (columns d2); rows := rows d2 |} /\
    In "StudentID"%string (columns d2) /\ In "Name"%string (columns d2) /\
    len d2 = len parsed /\ (wf parsed -> wf d2).
Proof.
  unfold load_data. intros H.
  apply bind_Ok_inv in H. destruct H as [d1 [H1 H]].
  apply bind_Ok_inv in H. destruct H as [d2 [H2 H]]. injection H as <-.
  exists d2. split; [reflexivity|].
  assert (S1 : In "StudentID"%string (columns d1) /\ len d1 = len parsed /\
               (wf parsed -> wf d1)).
  { destruct (has_column parsed "StudentID") eqn:E; simpl in H1.
    - injection H1 as <-. split; [now apply has_column_In | now split].
    - apply insert_shape in H1. destruct H1 as [L [W I]].
      split; [apply I; now left | now split]. }
  destruct S1 as [I1 [L1 W1]].
  destruct (has_column d1 "Name") eqn:E; simpl in H2.
  - injection H2 as <-. repeat split; try assumption. now apply has_column_In.
  - apply insert_shape in H2. destruct H2 as [L [W I]].
    repeat split.
    + apply I. now right.
    + apply I. now left.
    + congruence.
    + intros Hw. now apply W, W1.
Qed.

(** X1. [load_data] returns a frame for every parsed input, and the frame
    has a [StudentID] and a [Name] column, as many records as the input,
    and one cell per column in every record if the input had. *)
Theorem load_data_ensures_identity (parsed : DataFrame) :
  exists df,
    load_data parsed = Ok df /\
    has_column df "StudentID" = true /\
    has_column df "Name" = true /\
    len df = len parsed /\
    (wf parsed -> wf df).
Proof.
  destruct (load_data_total parsed) as [df H]. exists df.
  split; [exact H|].
  destruct (load_data_shape _ _ H) as [d2 [-> [I1 [I2 [L W]]]]].
  repeat split.
  - apply has_column_In. simpl.
    change "StudentID"%string with (strip "StudentID"). now apply in_map.
  - apply has_column_In. simpl.
    change "Name"%string with (strip "Name"). now apply in_map.
  - exact L.
  - intros Hw. specialize (W Hw). unfold wf in *. simpl.
    now rewrite length_map.
Qed.

Lemma load_data_ensures_identity_witness :
  exists df,
    load_data padded_header = Ok df /\
    has_column df "StudentID" = true /\
    has_column df "Name" = true /\
    len df = len padded_header /\
    wf df.
Proof.
  destruct (load_data_ensures_identity padded_header) as [df [H [H1 [H2 [L W]]]]].
  exists df. repeat split; try assumption. apply W. repeat constructor.
Defined.

(** X2. No label of a loaded frame begins or ends with whitespace:
    stripping it again changes nothing. *)
Theorem load_data_labels_stripped (parsed df : DataFrame) :
  load_data parsed = Ok df -> Forall (fun c => strip c = c) (columns df).
Proof.
  intros H. destruct (load_data_shape _ _ H) as [d2 [-> _]]. simpl.
  rewrite Forall_map. apply Forall_forall. intros c _. apply strip_idempotent.
Qed.

Lemma load_data_labels_stripped_witness :
  Forall (fun c => strip c = c) ["StudentID"; "Name"; "Math"; "Science"]%string.
Proof.
  apply (load_data_labels_stripped
           {| columns := [" Math"; "Science  "]%string; rows := [[CInt 80; CInt 70]] |}
           {| columns := ["StudentID"; "Name"; "Math"; "Science"]%string;
              rows := [[CInt 1; CStr "Student 1"; CInt 80; CInt 70]] |}).
  reflexivity.
Defined.

Lemma load_data_synthesizes_identity_witness :
  load_data {| columns := ["Math "]%string; rows := [[CInt 80]; [CInt 50]] |} =
    Ok {| columns := ["StudentID"; "Name"; "Math"]%string;
          rows := number_rows 1 [[CInt 80]; [CInt 50]] |}.
Proof.
  apply (load_data_synthesizes_identity
           {| columns := ["Math "]%string; rows := [[CInt 80]; [CInt 50]] |});
    reflexivity.
Defined.

Lemma load_data_idempotent_witness :
  load_data
    {| columns := ["StudentID"; "Name"; "Math"]%string;
       rows := [[CInt 1; CStr "Student 1"; CInt 80]] |} =
    Ok {| columns := ["StudentID"; "Name"; "Math"]%string;
          rows := [[CInt 1; CStr "Student 1"; CInt 80]] |}.
Proof.
  apply (load_data_idempotent
           {| columns := [" Math"]%string; rows := [[CInt 80]] |}).
  reflexivity.
Defined.

(** ** [grade_from_percentage]: range and order *)

(** X5. Whatever the input, the result is one of the eight grades. *)
Theorem grade_from_percentage_range (v : cell) :
  In (grade_from_percentage v) grades.
Proof.
  unfold grade_from_percentage, grades.
  destruct (py_float v) as [x|e]; [|simpl; tauto].
  repeat match goal with
         | |- context [if fge x ?t then _ else _] => destruct (fge x t)
         end; simpl; tauto.
Qed.

(** X6. The grade never goes down when the percentage goes up: of two
    inputs that convert to floats [x1 <= x2], the second gets a grade at
    least as high. *)
Theorem grade_from_percentage_monotone (v1 v2 : cell) (x1 x2 : float) :
  py_float v1 = Ok x1 -> py_float v2 = Ok x2 -> fge x2 x1 = true ->
  (grade_rank (grade_from_percentage v1) <= grade_rank (grade_from_percentage v2))%nat.
Proof.
  intros H1 H2 Hle. unfold grade_from_percentage. rewrite H1, H2.
  assert (T : forall t, fge x1 t = true -> fge x2 t = true).
  { intros t Ht. now apply fge_trans with x1. }
  pose proof (T (of_Z 90)) as T90. pose proof (T (of_Z 80)) as T80.
  pose proof (T (of_Z 70)) as T70. pose proof (T (of_Z 60)) as T60.
  pose proof (T (of_Z 50)) as T50. pose proof (T (of_Z 40)) as T40.
  destruct (fge x1 (of_Z 90)); [rewrite (T90 eq_refl); unfold grade_rank; simpl; lia|].
  destruct (fge x1 (of_Z 80));
    [rewrite (T80 eq_refl); destruct (fge x2 (of_Z 90)); unfold grade_rank; simpl; lia|].
  destruct (fge x1 (of_Z 70));
    [rewrite (T70 eq_refl);
     destruct (fge x2 (of_Z 90)), (fge x2 (of_Z 80)); unfold grade_rank; simpl; lia|].
  destruct (fge x1 (of_Z 60));
    [rewrite (T60 eq_refl);
     destruct (fge x2 (of_Z 90)), (fge x2 (of_Z 80)), (fge x2 (of_Z 70));
     unfold grade_rank; simpl; lia|].
  destruct (fge x1 (of_Z 50));
    [rewrite (T50 eq_refl);
     destruct (fge x2 (of_Z 90)), (fge x2 (of_Z 80)), (fge x2 (of_Z 70)),
       (fge x2 (of_Z 60)); unfold grade_rank; simpl; lia|].
  destruct (fge x1 (of_Z 40));
    [rewrite (T40 eq_refl);
     destruct (fge x2 (of_Z 90)), (fge x2 (of_Z 80)), (fge x2 (of_Z 70)),
       (fge x2 (of_Z 60)), (fge x2 (of_Z 50)); unfold grade_rank; simpl; lia|].
  unfold grade_rank; simpl; lia.
Qed.

Lemma grade_from_percentage_monotone_witness :
  (grade_rank (grade_from_percentage (CStr "39.5"))
   <= grade_rank (grade_from_percentage (CInt 72)))%nat.
Proof.
  apply (grade_from_percentage_monotone (CStr "39.5") (CInt 72)
           (Fin (79 # 2)) (Fin 72)); reflexivity.
Defined.

(** ** [compute_student_aggregates]: the frame it returns *)

Lemma mapM_Ok_length {A B : Type} (f : A -> result B) (l : list A) (l' : list B) :
  mapM f l = Ok l' -> length l' = length l.
Proof.
  revert l'. induction l as [|a l IH]; intros l' H; simpl in H.
  - now injection H as <-.
  - destruct (f a); [|discriminate]. simpl in H.
    destruct (mapM f l) as [bs|]; [|discriminate]. simpl in H.
    injection H as <-. simpl. f_equal. now apply IH.
Qed.

Lemma mapM_Ok_Forall {A B : Type} (f : A -> result B) (P : B -> Prop)
    (l : list A) (l' : list B) :
  (forall a b, f a = Ok b -> P b) -> mapM f l = Ok l' -> Forall P l'.
Proof.
  intros Hf. revert l'. induction l as [|a l IH]; intros l' H; simpl in H.
  - injection H as <-. constructor.
  - destruct (f a) as [b|] eqn:E; [|discriminate]. simpl in H.
    destruct (mapM f l) as [bs|]; [|discriminate]. simpl in H.
    injection H as <-. constructor; [now apply (Hf a) | now apply IH].
Qed.

Lemma has_column_setitem (k k' : string) (values : list cell) (df : DataFrame) :
  has_column (setitem k values df) k' = has_column df k' || String.eqb k' k.
Proof.
  unfold setitem. destruct (has_column df k) eqn:E; unfold has_column; simpl.
  - destruct (String.eqb_spec k' k) as [->|_]; [|now rewrite orb_false_r].
    unfold has_column in E. now rewrite E.
  - rewrite existsb_app. simpl. now rewrite orb_false_r.
Qed.

Lemma columns_setitem_In (k k' : string) (values : list cell) (df : DataFrame) :
  In k' (columns df) -> In k' (columns (setitem k values df)).
Proof.
  intros H. apply has_column_In. rewrite has_column_setitem.
  apply has_column_In in H. now rewrite H.
Qed.

Lemma add_missing_len (keys : list string) (df : DataFrame) :
  len (add_missing df keys) = len df.
Proof.
  apply (add_missing_ind (fun d => len d = len df)); [|reflexivity].
  intros d s Hd _. unfold len in *. simpl. now rewrite length_map.
Qed.

(** The loop leaves the columns that were there as they were. *)
Lemma add_missing_column (keys : list string) (df : DataFrame) (k : string) :
  wf df -> has_column df k = true ->
  column (add_missing df keys) k = column df k.
Proof.
  intros Hwf Hk.
  assert (G : wf (add_missing df keys) /\
              has_column (add_missing df keys) k = true /\
              column (add_missing df keys) k = column df k).
  { apply (add_missing_ind
             (fun d => wf d /\ has_column d k = true /\ column d k = column df k));
      [|now repeat split].
    intros d s [Wd [Hd Cd]] Hs. split; [|split].
    - unfold wf in *. simpl. rewrite Forall_map.
      eapply Forall_impl; [|exact Wd].
      intros r Hr. cbv beta in Hr. simpl. rewrite !length_app. simpl. lia.
    - apply has_column_In. simpl. apply in_or_app. left. now apply has_column_In.
    - rewrite <- Cd. unfold column. simpl. rewrite map_map.
      apply map_ext_in. intros r Hr. unfold cell_at.
      unfold wf in Wd. rewrite Forall_forall in Wd.
      rewrite cells_at_app by (now apply Wd).
      destruct (String.eqb_spec s k) as [->|_]; [congruence|].
      now rewrite app_nil_r. }
  exact (proj2 (proj2 G)).
Qed.

Lemma branch_lengths (df : DataFrame) (keys : list string) (tmz : bool)
    (tp : list float * list float) :
  (if tmz then zero_fill df keys else skip_missing df keys) = Ok tp ->
  length (fst tp) = len df /\ length (snd tp) = len df.
Proof.
  unfold zero_fill, skip_missing, getitem, len.
  destruct (forallb (has_column df) keys); [|destruct tmz; discriminate].
  destruct tmz; cbn [bind].
  - destruct (mapM sum_skipna _) as [total|] eqn:M; [|discriminate].
    cbn [bind]. intros H. injection H as <-. cbn [fst snd].
    apply mapM_Ok_length in M. rewrite !length_map in *. now split.
  - destruct (mapM sum_skipna _) as [total|] eqn:M; [|discriminate].
    cbn [bind]. intros H. injection H as <-. cbn [fst snd].
    apply mapM_Ok_length in M.
    rewrite !length_map, length_combine, !length_map in *. split; lia.
Qed.

Lemma astype_int_CInt (x : float) (v : cell) :
  astype_int x = Ok v -> exists z, v = CInt z.
Proof. destruct x; simpl; intros H; try discriminate. injection H as <-. now eexists. Qed.

(** Everything a successful run fixes about its result. *)
Lemma aggregates_facts (df : DataFrame) (keys : list string) (tmz : bool)
    (d : DataFrame) :
  wf df ->
  compute_student_aggregates df keys tmz = Ok d ->
  exists pcts,
    column d "Percentage" = map (fun p => CFloat (round2 p)) pcts /\
    Forall (fun v => exists z, v = CInt z) (column d "Total") /\
    column d "Grade" =
      map (fun p => CStr (grade_from_percentage p)) (column d "Percentage") /\
    len d = len df /\ wf d /\
    (forall k, In k (columns df) -> In k (columns d)) /\
    (forall k, In k ["Total"; "Percentage"; "Grade"]%string -> In k (columns d)) /\
    (forall k, In k (columns df) ->
               ~ In k ["Total"; "Percentage"; "Grade"]%string ->
               column d k = column df k).
Proof.
  intros Hwf H. unfold compute_student_aggregates in H. cbv zeta in H.
  apply bind_Ok_inv in H. destruct H as [tp [Hb H]].
  apply bind_Ok_inv in H. destruct H as [ti [Ht H]]. injection H as <-.
  set (df1 := add_missing df keys) in *.
  destruct (branch_lengths _ _ _ _ Hb) as [Lt Lp].
  set (P := map (fun p => CFloat (round2 p)) (snd tp)).
  set (d1 := setitem "Total" ti df1).
  set (d2 := setitem "Percentage" P d1).
  assert (W1 : wf df1) by (now apply add_missing_wf).
  assert (LT : length ti = len df1).
  { apply mapM_Ok_length in Ht. congruence. }
  assert (L1 : len d1 = len df1) by (now apply len_setitem).
  assert (LP : length P = len d1) by (unfold P; rewrite length_map; congruence).
  assert (W2 : wf d1) by (now apply wf_setitem).
  assert (L2 : len d2 = len d1) by (now apply len_setitem).
  assert (W3 : wf d2) by (now apply wf_setitem).
  assert (C2 : column d2 "Percentage" = P) by (now apply column_setitem_same).
  set (G := map (fun p => CStr (grade_from_percentage p)) (column d2 "Percentage")).
  assert (LG : length G = len d2).
  { unfold G. now rewrite length_map, column_length. }
  assert (CP : column (setitem "Grade" G d2) "Percentage" = P).
  { rewrite column_setitem_other by (try reflexivity; assumption). exact C2. }
  exists (snd tp). split; [exact CP|]. split; [|split; [|split; [|split; [|split; [|split]]]]].
  - rewrite column_setitem_other by (try reflexivity; assumption).
    unfold d2. rewrite column_setitem_other by (try reflexivity; assumption).
    unfold d1. rewrite column_setitem_same by assumption.
    apply (mapM_Ok_Forall astype_int _ (fst tp)); [|exact Ht].
    intros a b. apply astype_int_CInt.
  - rewrite column_setitem_same by assumption. rewrite CP. unfold G. now rewrite C2.
  - rewrite len_setitem by assumption. rewrite L2, L1. apply add_missing_len.
  - now apply wf_setitem.
  - intros k Hk. do 3 apply columns_setitem_In. now apply add_missing_keeps.
  - intros k Hk. apply has_column_In. unfold d2, d1.
    rewrite !has_column_setitem.
    simpl in Hk. destruct Hk as [<-|[<-|[<-|[]]]]; simpl;
      now destruct (has_column df1 _).
  - intros k Hk Hn.
    assert (N : String.eqb "Grade" k = false /\ String.eqb "Percentage" k = false /\
                String.eqb "Total" k = false).
    { repeat split; apply String.eqb_neq; intros <-; apply Hn; simpl; auto. }
    destruct N as [N1 [N2 N3]].
    rewrite column_setitem_other by assumption.
    unfold d2. rewrite column_setitem_other by assumption.
    unfold d1. rewrite column_setitem_other by assumption.
    apply add_missing_column; [exact Hwf | now apply has_column_In].
Qed.

(** X7. A successful aggregation leaves a rectangular frame with the same
    number of records, every input column still there, the three derived
    columns [Total], [Percentage], [Grade] present, and every input column
    other than these three with the cells it had. *)
Theorem aggregates_preserve_input (df : DataFrame) (subject_cols : list string)
    (treat_missing_as_zero : bool) (d : DataFrame) :
  wf df ->
  compute_student_aggregates df subject_cols treat_missing_as_zero = Ok d ->
  wf d /\ len d = len df /\
  (forall k, In k (columns df) -> In k (columns d)) /\
  (forall k, In k ["Total"; "Percentage"; "Grade"]%string -> In k (columns d)) /\
  (forall k, In k (columns df) ->
             ~ In k ["Total"; "Percentage"; "Grade"]%string ->
             column d k = column df k).
Proof.
  intros Hwf H.
  destruct (aggregates_facts _ _ _ _ Hwf H) as [pcts [_ [_ [_ [L [W [I1 [I2 I3]]]]]]]].
  repeat split; assumption.
Qed.

(** X8. In the frame a successful aggregation returns, every [Total] is an
    integer, every [Percentage] is a float, and the [Grade] of each record
    is [grade_from_percentage] of the [Percentage] stored for it. *)
Theorem aggregates_grade_matches_percentage (df : DataFrame)
    (subject_cols : list string) (treat_missing_as_zero : bool) (d : DataFrame) :
  wf df ->
  compute_student_aggregates df subject_cols treat_missing_as_zero = Ok d ->
  Forall (fun v => exists z, v = CInt z) (column d "Total") /\
  Forall (fun v => exists x, v = CFloat x) (column d "Percentage") /\
  column d "Grade" =
    map (fun p => CStr (grade_from_percentage p)) (column d "Percentage").
Proof.
  intros Hwf H.
  destruct (aggregates_facts _ _ _ _ Hwf H) as [pcts [HP [HT [HG _]]]].
  split; [exact HT|]. split; [|exact HG].
  rewrite HP, Forall_map. apply Forall_forall. intros p _. now eexists.
Qed.

Lemma aggregates_preserve_input_witness :
  exists d,
    compute_student_aggregates example_dataset example_subjects false = Ok d /\
    wf d /\ len d = len example_dataset /\
    (forall k, In k (columns example_dataset) -> In k (columns d)) /\
    (forall k, In k ["Total"; "Percentage"; "Grade"]%string -> In k (columns d)) /\
    (forall k, In k (columns example_dataset) ->
               ~ In k ["Total"; "Percentage"; "Grade"]%string ->
               column d k = column example_dataset k).
Proof.
  eexists. split; [vm_compute; reflexivity|].
  apply (aggregates_preserve_input example_dataset example_subjects false).
  - repeat constructor.
  - vm_compute. reflexivity.
Defined.

Lemma aggregates_grade_matches_percentage_witness :
  exists d,
    compute_student_aggregates example_dataset example_subjects true = Ok d /\
    Forall (fun v => exists z, v = CInt z) (column d "Total") /\
    Forall (fun v => exists x, v = CFloat x) (column d "Percentage") /\
    column d "Grade" =
      map (fun p => CStr (grade_from_percentage p)) (column d "Percentage").
Proof.
  eexists. split; [vm_compute; reflexivity|].
  apply (aggregates_grade_matches_percentage example_dataset example_subjects true).
  - repeat constructor.
  - vm_compute. reflexivity.
Defined.

(** ** [compute_student_aggregates]: the zero-fill policy *)

Lemma Qsum_fillna (cells : list cell) :
  Forall valid cells ->
  (Qsum (values (map (fillna (CFloat (Fin 0))) cells)) == Qsum (values cells))%Q.
Proof.
  induction 1 as [|v l Hv Hl IH]; [reflexivity|].
  cbn [map values]. unfold fillna at 1. destruct Hv as [Hna|[q Hq]].
  - rewrite Hna. cbn [score Qsum fold_right]. fold (Qsum (values (map (fillna (CFloat (Fin 0))) l))).
    destruct v as [[x| | |]|z|s|]; try discriminate; cbn [score]; rewrite IH; lra.
  - assert (E : isna v = false)
      by (destruct v as [[x| | |]|z|s|]; try discriminate; reflexivity).
    rewrite E, Hq. cbn [Qsum fold_right].
    fold (Qsum (values (map (fillna (CFloat (Fin 0))) l))). fold (Qsum (values l)).
    now rewrite IH.
Qed.

Lemma percent_of_comp (a b : Q) (d : Z) : (a == b)%Q -> percent_of a d = percent_of b d.
Proof. intros H. unfold percent_of. apply round_2dp_comp. now rewrite H. Qed.

Lemma zero_fill_columns (df : DataFrame) (subject_cols : list string) :
  wf df ->
  subject_cols <> [] ->
  (forall r k v, In r (rows df) -> In k subject_cols ->
                 In v (cells_at (columns df) r k) -> valid v) ->
  exists d,
    compute_student_aggregates df subject_cols true = Ok d /\
    column d "Total" =
      map (fun cells => CInt (trunc (Qsum (values cells))))
          (subject_cells df subject_cols) /\
    column d "Percentage" =
      map (fun cells =>
             CFloat (Fin (percent_of (Qsum (values cells))
                                     (100 * Z.of_nat (length subject_cols)))))
          (subject_cells df subject_cols).
Proof.
  intros Hwf Hne Hv.
  assert (HV : Forall (Forall valid) (subject_cells df subject_cols)).
  { apply subject_cells_Forall; [|exact Hwf|exact Hv]. right. now exists 0%Q. }
  destruct (aggregates_columns df subject_cols true _ _ Hwf
              (eq_trans (length_map _ _) (subject_cells_length _ _))
              (eq_trans (length_map _ _) (subject_cells_length _ _))
              (zero_fill_valid df subject_cols HV))
    as [d [Hd [HT [HP _]]]].
  exists d. split; [exact Hd|].
  rewrite Forall_forall in HV. split.
  - rewrite HT, map_map. apply map_ext_in. intros cells Hin. f_equal.
    apply trunc_comp. rewrite Qred_correct. now apply Qsum_fillna, HV.
  - rewrite HP, map_map. apply map_ext_in. intros cells Hin. f_equal.
    rewrite scale_round by (destruct subject_cols; [easy | simpl length; lia]).
    f_equal. now apply percent_of_comp, Qsum_fillna, HV.
Qed.



(** ** [compute_student_aggregates]: the two policies side by side *)

Lemma fillna_present (cells : list cell) :
  Forall (fun v => exists q, score v = Some q) cells ->
  map (fillna (CFloat (Fin 0))) cells = cells.
Proof.
  induction 1 as [|v l [q Hq] Hl IH]; [reflexivity|].
  simpl. rewrite IH. f_equal. unfold fillna.
  destruct v as [[x| | |]|z|s|]; try discriminate; reflexivity.
Qed.

Lemma count_present (cells : list cell) :
  Forall (fun v => exists q, score v = Some q) cells ->
  count cells = Z.of_nat (length cells).
Proof.
  intros H. unfold count. f_equal. f_equal. apply filter_id.
  rewrite Forall_forall in H. intros v Hv. destruct (H v Hv) as [q Hq].
  destruct v as [[x| | |]|z|s|]; try discriminate; reflexivity.
Qed.

(** X10. On a dataset with distinct field names in which no subject value
    is missing, the two policies return the same frame. *)
Theorem policies_agree_without_missing (df : DataFrame) (subject_cols : list string) :
  wf df ->
  NoDup (columns df) ->
  subject_cols <> [] ->
  (forall r k v, In r (rows df) -> In k subject_cols ->
                 In v (cells_at (columns df) r k) -> exists q, score v = Some q) ->
  compute_student_aggregates df subject_cols true =
  compute_student_aggregates df subject_cols false.
Proof.
  intros Hwf Hnd Hne Hs.
  assert (HS : Forall (Forall (fun v => exists q, score v = Some q))
                      (subject_cells df subject_cols)).
  { apply subject_cells_Forall; [now exists 0%Q|exact Hwf|exact Hs]. }
  assert (HV : Forall (Forall valid) (subject_cells df subject_cols)).
  { eapply Forall_impl; [|exact HS]. intros cells Hc.
    eapply Forall_impl; [|exact Hc]. intros v Hv. now right. }
  assert (HW : Forall (fun cells => length cells = length subject_cols)
                      (subject_cells df subject_cols)).
  { unfold subject_cells. rewrite Forall_map, Forall_forall. intros r Hin.
    pose proof (add_missing_wf subject_cols df Hwf) as W.
    unfold wf in W. rewrite Forall_forall in W.
    apply select_row_length;
      [ now apply add_missing_NoDup | now apply W
      | intros k Hk; now apply add_missing_all_present ]. }
  unfold compute_student_aggregates. cbv zeta.
  rewrite (zero_fill_valid df subject_cols HV), (skip_missing_valid df subject_cols HV).
  rewrite Forall_forall in HS, HW.
  replace (map (fun cells => Qred (Qsum (values (map (fillna (CFloat (Fin 0))) cells))))
               (subject_cells df subject_cols))
    with (map (fun cells => Qred (Qsum (values cells))) (subject_cells df subject_cols)).
  2:{ apply map_ext_in. intros cells Hin. now rewrite fillna_present by (now apply HS). }
  replace (map (fun cells =>
                  fmul_int
                    (fdiv_int
                       (Fin (Qred (Qsum (values (map (fillna (CFloat (Fin 0))) cells)))))
                       (100 * Z.of_nat (length subject_cols))) 100)
               (subject_cells df subject_cols))
    with (map (fun cells =>
                 let p := fmul_int (fdiv_int (Fin (Qred (Qsum (values cells))))
                                             (count cells * 100)) 100 in
                 if isnan p then Fin 0 else p)
              (subject_cells df subject_cols)); [reflexivity|].
  apply map_ext_in. intros cells Hin. cbv zeta.
  rewrite fillna_present, count_present by (now apply HS).
  rewrite (HW cells Hin), (Z.mul_comm (Z.of_nat _) 100).
  unfold fdiv_int.
  destruct (Z.eqb_spec (100 * Z.of_nat (length subject_cols)) 0) as [E|_].
  - destruct subject_cols; [easy | simpl length in E; lia].
  - reflexivity.
Qed.

Lemma policies_agree_without_missing_witness :
  compute_student_aggregates example_dataset example_subjects true =
  compute_student_aggregates example_dataset example_subjects false.
Proof.
  apply (policies_agree_without_missing example_dataset example_subjects).
  - repeat constructor.
  - repeat constructor; simpl; intuition discriminate.
  - discriminate.
  - intros r k v Hr Hk Hv.
    simpl in Hr. destruct Hr as [<-|[<-|[<-|[]]]];
      simpl in Hk; destruct Hk as [<-|[<-|[]]];
      simpl in Hv; destruct Hv as [<-|[]]; now eexists.
Defined.

Lemma subject_cells_nil (df : DataFrame) :
  subject_cells df [] = map (fun _ => []) (rows df).
Proof. reflexivity. Qed.

(** X11. With an empty list of subject columns every record gets Total 0;
    zero-fill then divides 0 by 0 and stores a NaN Percentage, which is
    graded "F", while skip-missing stores Percentage 0. *)
Theorem aggregates_without_subjects (df : DataFrame) :
  wf df ->
  (exists d,
     compute_student_aggregates df [] true = Ok d /\
     Forall (fun v => v = CInt 0) (column d "Total") /\
     Forall (fun v => v = CFloat NaN) (column d "Percentage") /\
     Forall (fun v => v = CStr "F") (column d "Grade")) /\
  (exists d,
     compute_student_aggregates df [] false = Ok d /\
     Forall (fun v => v = CInt 0) (column d "Total") /\
     Forall (fun v => v = CFloat (Fin 0)) (column d "Percentage") /\
     Forall (fun v => v = CStr "F") (column d "Grade")).
Proof.
  intros Hwf.
  assert (HV : Forall (Forall valid) (subject_cells df [])).
  { rewrite subject_cells_nil, Forall_map. apply Forall_forall. constructor. }
  split.
  - destruct (aggregates_columns df [] true _ _ Hwf
                (eq_trans (length_map _ _) (subject_cells_length _ _))
                (eq_trans (length_map _ _) (subject_cells_length _ _))
                (zero_fill_valid df [] HV))
      as [d [Hd [HT [HP HG]]]].
    exists d. split; [exact Hd|].
    rewrite HT, HP, HG, subject_cells_nil, !map_map, !Forall_map.
    repeat split; apply Forall_forall; intros r _; reflexivity.
  - destruct (aggregates_columns df [] false _ _ Hwf
                (eq_trans (length_map _ _) (subject_cells_length _ _))
                (eq_trans (length_map _ _) (subject_cells_length _ _))
                (skip_missing_valid df [] HV))
      as [d [Hd [HT [HP HG]]]].
    exists d. split; [exact Hd|].
    rewrite HT, HP, HG, subject_cells_nil, !map_map, !Forall_map.
    repeat split; apply Forall_forall; intros r _; reflexivity.
Qed.

Lemma aggregates_without_subjects_witness :
  (exists d,
     compute_student_aggregates example_dataset [] true = Ok d /\
     Forall (fun v => v = CInt 0) (column d "Total") /\
     Forall (fun v => v = CFloat NaN) (column d "Percentage") /\
     Forall (fun v => v = CStr "F") (column d "Grade")) /\
  (exists d,
     compute_student_aggregates example_dataset [] false = Ok d /\
     Forall (fun v => v = CInt 0) (column d "Total") /\
     Forall (fun v => v = CFloat (Fin 0)) (column d "Percentage") /\
     Forall (fun v => v = CStr "F") (column d "Grade")).
Proof.
  apply (aggregates_without_subjects example_dataset). repeat constructor.
Defined.

(** ** [compute_student_aggregates]: what it raises *)




Lemma sum_skipna_text (l : list cell) (s : string) :
  In (CStr s) l -> sum_skipna l = Raise TypeError.
Proof.
  induction l as [|v l IH]; [easy|].
  intros [->|Hin]; [reflexivity|].
  simpl. rewrite (IH Hin).
  destruct v as [[x| | |]|z|t|]; reflexivity.
Qed.

Lemma mapM_sum_skipna_text (sel : list (list cell)) (cells : list cell) (s : string) :
  In cells sel -> In (CStr s) cells -> mapM sum_skipna sel = Raise TypeError.
Proof.
  intros Hc Hs. induction sel as [|a sel IH]; [easy|].
  simpl. destruct Hc as [->|Hc].
  - now rewrite (sum_skipna_text cells s Hs).
  - rewrite (IH Hc). destruct (sum_skipna a) as [t|e] eqn:E; [reflexivity|].
    simpl. f_equal. now apply (sum_skipna_Raise a).
Qed.

(** A cell of the input is a cell of the frame after the loop, under the
    same label. *)
Lemma add_missing_cell_kept (keys : list string) (df : DataFrame)
    (r : list cell) (k : string) (v : cell) :
  wf df -> In r (rows df) -> In v (cells_at (columns df) r k) ->
  exists r1, In r1 (rows (add_missing df keys)) /\
             In v (cells_at (columns (add_missing df keys)) r1 k).
Proof.
  intros Hwf Hr Hv.
  assert (G : wf (add_missing df keys) /\
              exists r1, In r1 (rows (add_missing df keys)) /\
                         In v (cells_at (columns (add_missing df keys)) r1 k)).
  { apply (add_missing_ind
             (fun d => wf d /\ exists r1, In r1 (rows d) /\
                                          In v (cells_at (columns d) r1 k))).
    - intros d s [Wd [r1 [Hr1 Hv1]]] _. split.
      + unfold wf in *. simpl. rewrite Forall_map.
        eapply Forall_impl; [|exact Wd].
        intros r' Hr'. cbv beta in Hr'. simpl. rewrite !length_app. simpl. lia.
      + exists (r1 ++ [CFloat (Fin 0)]). simpl. split.
        * apply in_map_iff. now exists r1.
        * unfold wf in Wd. rewrite Forall_forall in Wd.
          rewrite cells_at_app by (now apply Wd). apply in_or_app. now left.
    - split; [exact Hwf|]. now exists r. }
  exact (proj2 G).
Qed.

(** X13. Text in a subject cell of any record makes the aggregator raise
    [TypeError], under either policy. *)
Theorem aggregates_reject_text (df : DataFrame) (subject_cols : list string)
    (treat_missing_as_zero : bool) (r : list cell) (k s : string) :
  wf df ->
  In r (rows df) -> In k subject_cols -> In (CStr s) (cells_at (columns df) r k) ->
  compute_student_aggregates df subject_cols treat_missing_as_zero = Raise TypeError.
Proof.
  intros Hwf Hr Hk Hs.
  destruct (add_missing_cell_kept subject_cols df r k (CStr s) Hwf Hr Hs)
    as [r1 [Hr1 Hs1]].
  set (df1 := add_missing df subject_cols) in *.
  assert (Hsel : In (CStr s) (select_row (columns df1) subject_cols r1)).
  { unfold select_row. apply in_flat_map. now exists k. }
  unfold compute_student_aggregates. cbv zeta. fold df1.
  destruct treat_missing_as_zero; unfold zero_fill, skip_missing;
    unfold df1; rewrite getitem_add_missing; fold df1; cbn [bind].
  - rewrite (mapM_sum_skipna_text _
               (map (fillna (CFloat (Fin 0))) (select_row (columns df1) subject_cols r1)) s).
    + reflexivity.
    + apply in_map, in_map, Hr1.
    + apply in_map_iff. exists (CStr s). split; [reflexivity|exact Hsel].
  - rewrite (mapM_sum_skipna_text _ (select_row (columns df1) subject_cols r1) s).
    + reflexivity.
    + apply in_map, Hr1.
    + exact Hsel.
Qed.

Lemma aggregates_reject_text_witness :
  compute_student_aggregates
    {| columns := ["Name"; "Math"]%string;
       rows := [[CStr "Ann"; CInt 80]; [CStr "Bob"; CStr "absent"]] |}
    ["Math"]%string false = Raise TypeError.
Proof.
  apply (aggregates_reject_text _ _ false [CStr "Bob"; CStr "absent"]
           "Math"%string "absent"%string).
  - repeat constructor.
  - simpl. auto.
  - simpl. auto.
  - simpl. auto.
Defined.

(** ** From the aggregator to the filter and the summary *)

(** X14. What the aggregator returns can always be summarised and
    filtered: [compute_statistics] succeeds on it, and for every choice of
    class, section, threshold and [top_n] [filter_data] succeeds on it and
    [compute_statistics] succeeds on the filtered frame. *)
Theorem aggregated_frame_is_usable (K : Quicksort) (df : DataFrame)
    (subject_cols : list string) (treat_missing_as_zero : bool) (d : DataFrame) :
  wf df ->
  compute_student_aggregates df subject_cols treat_missing_as_zero = Ok d ->
  (exists st, compute_statistics d = Ok st) /\
  (forall (c s : cell) (m : float) (top_n : option Z),
      exists d', filter_data (K := K) d c s m top_n = Ok d' /\
                 exists st', compute_statistics d' = Ok st').
Proof.
  intros Hwf H.
  destruct (aggregates_facts _ _ _ _ Hwf H) as [pcts [HP _]].
  assert (Hnum : numeric_column (column d "Percentage")).
  { rewrite HP. unfold numeric_column. rewrite Forall_map.
    apply Forall_forall. reflexivity. }
  split; [now apply compute_statistics_total|].
  intros c s m top_n.
  destruct (filter_data_total (K := K) d c s m top_n Hnum) as [d' Hd'].
  exists d'. split; [exact Hd'|].
  apply compute_statistics_total.
  apply (subframe_numeric d' d); [|exact Hnum].
  destruct (filter_data_kept _ _ _ _ _ _ Hd') as [Hc Hr].
  split; [exact Hc|]. intros r Hin. now apply Hr.
Qed.

Lemma aggregated_frame_is_usable_witness :
  exists d,
    compute_student_aggregates example_dataset example_subjects true = Ok d /\
    (exists st, compute_statistics d = Ok st) /\
    (forall (c s : cell) (m : float) (top_n : option Z),
        exists d', filter_data (K := stable_quicksort) d c s m top_n = Ok d' /\
                   exists st', compute_statistics d' = Ok st').
Proof.
  eexists. split; [vm_compute; reflexivity|].
  apply (aggregated_frame_is_usable stable_quicksort
           example_dataset example_subjects true).
  - repeat constructor.
  - vm_compute. reflexivity.
Defined.

(** ** [compute_statistics]: the pass rate and the empty column *)

Lemma dropna_all_missing (l : list cell) :
  Forall (fun v => isna v = true) l -> dropna l = Ok [].
Proof.
  induction 1 as [|v l Hv Hl IH]; [reflexivity|].
  simpl. rewrite IH.
  destruct v as [[x| | |]|z|s|]; try discriminate; reflexivity.
Qed.

Lemma scale_round_any (a : Q) (d : Z) :
  d <> 0 ->
  round2 (fmul_int (fdiv_int (Fin a) d) 100) = Fin (percent_of a d).
Proof.
  intros Hd. unfold fdiv_int. destruct (Z.eqb_spec d 0) as [E|_]; [easy|].
  cbn [fmul_int]. rewrite round2_Fin. f_equal. unfold percent_of.
  apply round_2dp_comp. rewrite !Qred_correct. reflexivity.
Qed.

Lemma percent_true_round (mask : list bool) :
  mask <> [] ->
  round2 (percent_true mask) =
    Fin (percent_of (inject_Z (Z.of_nat (length (filter (fun b => b) mask))))
                    (Z.of_nat (length mask))).
Proof.
  intros H. unfold percent_true, of_Z. apply scale_round_any.
  destruct mask; [easy | simpl length; lia].
Qed.

Lemma nonempty_rows (df : DataFrame) : empty df = false -> rows df <> [].
Proof. unfold empty. destruct (rows df); [discriminate | discriminate]. Qed.

(** X15. When the frame has records and a [Percentage] column in which
    every value is missing, the summary is not the zero default: avg,
    median and highest are NaN and pass_rate is 0.0. *)
Theorem compute_statistics_nothing_present (df : DataFrame) :
  empty df = false ->
  has_column df "Percentage" = true ->
  Forall (fun v => isna v = true) (column df "Percentage") ->
  compute_statistics df =
    Ok {| avg := CFloat NaN; median := CFloat NaN; highest := CFloat NaN;
          pass_rate := CFloat (Fin 0) |}.
Proof.
  intros He Hc Hna. unfold compute_statistics. rewrite He, Hc. cbn [orb negb].
  unfold mean, median_of, max_of. rewrite (dropna_all_missing _ Hna). cbn [bind].
  rewrite (mapM_map (cell_ge (of_Z 40)) (fun _ => false)).
  - cbn [bind].
    assert (Hm : map (fun _ : cell => false) (column df "Percentage") <> []).
    { unfold column. pose proof (nonempty_rows df He) as Hr.
      destruct (rows df); [easy | discriminate]. }
    rewrite (percent_true_round _ Hm).
    replace (filter (fun b : bool => b) (map (fun _ : cell => false) (column df "Percentage")))
      with (@nil bool).
    + match goal with
      | |- context [percent_of ?a ?n] =>
          replace (percent_of a n) with 0%Q; [reflexivity|]
      end.
      unfold percent_of. transitivity (round_2dp 0); [reflexivity|].
      apply round_2dp_comp. unfold Qdiv.
      change (inject_Z (Z.of_nat (length (@nil bool)))) with 0%Q.
      now rewrite !Qmult_0_l.
    + symmetry. apply filter_none. intros b Hb. apply in_map_iff in Hb.
      now destruct Hb as [v [<- _]].
  - intros v Hv. rewrite Forall_forall in Hna. now apply isna_cell_ge, Hna.
Qed.

Lemma compute_statistics_nothing_present_witness :
  compute_statistics
    {| columns := ["Name"; "Percentage"]%string;
       rows := [[CStr "Ann"; CFloat NaN]; [CStr "Bob"; CNone]] |} =
    Ok {| avg := CFloat NaN; median := CFloat NaN; highest := CFloat NaN;
          pass_rate := CFloat (Fin 0) |}.
Proof.
  apply compute_statistics_nothing_present.
  - reflexivity.
  - reflexivity.
  - repeat constructor.
Defined.

(** X16. Whenever [compute_statistics] returns, its pass_rate is a number
    between 0 and 100. *)
Theorem pass_rate_within_bounds (df : DataFrame) (st : Stats) :
  compute_statistics df = Ok st ->
  exists q, score (pass_rate st) = Some q /\ (0 <= q)%Q /\ (q <= 100)%Q.
Proof.
  unfold compute_statistics.
  destruct (empty df) eqn:He; cbn [orb].
  { intros H. injection H as <-. exists 0%Q. repeat split; simpl; lra. }
  destruct (negb (has_column df "Percentage")).
  { intros H. injection H as <-. exists 0%Q. repeat split; simpl; lra. }
  intros H.
  apply bind_Ok_inv in H. destruct H as [a [_ H]].
  apply bind_Ok_inv in H. destruct H as [m [_ H]].
  apply bind_Ok_inv in H. destruct H as [h [_ H]].
  apply bind_Ok_inv in H. destruct H as [mask [Hm H]]. injection H as <-.
  cbn [pass_rate].
  assert (Hne : mask <> []).
  { apply mapM_Ok_length in Hm. rewrite column_length in Hm.
    pose proof (nonempty_rows df He) as Hr. unfold len in Hm.
    destruct mask; [|discriminate]. destruct (rows df); [easy|discriminate]. }
  rewrite (percent_true_round mask Hne). eexists. split; [reflexivity|].
  apply percent_of_range.
  - destruct mask; [easy | simpl length; lia].
  - change 0%Q with (inject_Z 0). rewrite <- Zle_Qle. lia.
  - rewrite <- Zle_Qle. apply Nat2Z.inj_le. apply filter_length_le.
Qed.

Lemma pass_rate_within_bounds_witness :
  exists q,
    score (pass_rate {| avg := CFloat (Fin 60); median := CFloat (Fin 60);
                        highest := CFloat (Fin 90); pass_rate := CFloat (Fin 50) |})
      = Some q /\ (0 <= q)%Q /\ (q <= 100)%Q.
Proof.
  apply (pass_rate_within_bounds
           {| columns := ["Percentage"]%string;
              rows := [[CFloat (Fin 90)]; [CFloat (Fin 30)]] |}).
  reflexivity.
Defined.




(** ** [filter_data]: which records come back *)

Lemma filter_filter {A : Type} (p q : A -> bool) (l : list A) :
  filter p (filter q l) = filter (fun a => q a && p a) l.
Proof.
  induction l as [|a l IH]; [reflexivity|].
  simpl. destruct (q a); simpl; [destruct (p a)|]; now rewrite IH.
Qed.

Lemma filter_data_rows_None (K : Quicksort) (df : DataFrame) (c s : cell)
    (m : float) (d : DataFrame) :
  filter_data (K := K) df c s m None = Ok d ->
  d = {| columns := columns df;
         rows := filter (kept (columns df) c s m) (rows df) |}.
Proof.
  intros H. apply filter_data_inv in H. destruct H as [d0 [-> H]].
  rewrite top_n_step_inactive in H by reflexivity. injection H as <-.
  f_equal. rewrite !filter_filter. apply filter_ext. intros r.
  unfold kept. now rewrite andb_assoc.
Qed.

(** X18. Without [top_n], the result has the columns of the input and, in
    input order, exactly the records that pass the class test, the section
    test and the threshold test. *)
Theorem filter_data_keeps_exactly (K : Quicksort) (df : DataFrame) (c s : cell)
    (m : float) (d : DataFrame) :
  filter_data (K := K) df c s m None = Ok d ->
  columns d = columns df /\
  rows d = filter (kept (columns df) c s m) (rows df).
Proof.
  intros H. apply filter_data_rows_None in H. subst d. now split.
Qed.

Lemma filter_data_keeps_exactly_witness :
  columns {| columns := ["Name"; "Percentage"]%string;
             rows := [[CStr "Ann"; CFloat (Fin 90)]] |} = columns gappy_dataset /\
  rows {| columns := ["Name"; "Percentage"]%string;
          rows := [[CStr "Ann"; CFloat (Fin 90)]] |} =
    filter (kept (columns gappy_dataset) (CStr "All") (CStr "All") (Fin 50))
           (rows gappy_dataset).
Proof.
  apply (filter_data_keeps_exactly stable_quicksort gappy_dataset
           (CStr "All") (CStr "All") (Fin 50)).
  reflexivity.
Defined.

Lemma filter_partition_length {A : Type} (p : A -> bool) (l : list A) :
  (length (filter (fun a => negb (p a)) l) + length (filter p l) = length l)%nat.
Proof.
  induction l as [|a l IH]; [reflexivity|].
  simpl. destruct (p a); simpl; lia.
Qed.

Lemma filter_partition_perm {A : Type} (p : A -> bool) (l : list A) :
  Permutation (filter (fun a => negb (p a)) l ++ filter p l) l.
Proof.
  induction l as [|a l IH]; [reflexivity|].
  simpl. destruct (p a); simpl.
  - rewrite <- Permutation_middle. now constructor.
  - now constructor.
Qed.

Lemma head_length {A : Type} (n : Z) (l : list A) : (length (head n l) <= length l)%nat.
Proof. unfold head. destruct (n <? 0); rewrite length_firstn; lia. Qed.

Section FilterMore.

Context {K : Quicksort}.

(** The rows after [sort_values]: a rearrangement of the rows before. *)
Lemma sort_values_perm (df d : DataFrame) :
  sort_values df = Ok d -> columns d = columns df /\ Permutation (rows d) (rows df).
Proof.
  intros H. apply sort_values_rows in H. subst d. split; [reflexivity|]. simpl.
  rewrite qsort_perm.
  apply (filter_partition_perm (fun r => isna (cell_at (columns df) "Percentage" r))).
Qed.

Lemma top_n_step_len (top_n : option Z) (df d : DataFrame) :
  top_n_step top_n df = Ok d -> (len d <= len df)%nat.
Proof.
  unfold top_n_step. destruct (truthy top_n && has_column df "Percentage").
  - intros H. apply bind_Ok_inv in H. destruct H as [sd [Hs H]]. injection H as <-.
    apply sort_values_perm in Hs. destruct Hs as [_ Hp].
    unfold len. simpl. rewrite <- (Permutation_length Hp). apply head_length.
  - intros H. injection H as <-. lia.
Qed.

(** X19. Whatever the parameters, [filter_data] returns the columns of the
    input and only records of the input, each of which passes the class
    test, the section test and the threshold test; it never returns more
    records than it was given. *)
Theorem filter_data_sound (df : DataFrame) (c s : cell) (m : float)
    (top_n : option Z) (d : DataFrame) :
  filter_data df c s m top_n = Ok d ->
  columns d = columns df /\
  (forall r, In r (rows d) -> In r (rows df) /\ kept (columns df) c s m r = true) /\
  (len d <= len df)%nat.
Proof.
  intros H. destruct (filter_data_kept _ _ _ _ _ _ H) as [Hc Hk].
  split; [exact Hc|]. split; [exact Hk|].
  apply filter_data_inv in H. destruct H as [d0 [Hd0 H]].
  apply top_n_step_len in H. subst d0. unfold len in *. simpl in H.
  eapply Nat.le_trans; [exact H|].
  eapply Nat.le_trans; [apply filter_length_le|].
  eapply Nat.le_trans; apply filter_length_le.
Qed.

(** X20. With a positive [top_n] and a [Percentage] column, the result
    holds [top_n] records, or all the records that pass the three tests
    when these are fewer. *)
Theorem filter_data_top_n_count (df : DataFrame) (c s : cell) (m : float)
    (n : Z) (d : DataFrame) :
  0 < n ->
  has_column df "Percentage" = true ->
  filter_data df c s m (Some n) = Ok d ->
  len d = Nat.min (Z.to_nat n) (length (filter (kept (columns df) c s m) (rows df))).
Proof.
  intros Hn Hc H. apply filter_data_inv in H. destruct H as [d0 [Hd0 H]].
  assert (Hr0 : rows d0 = filter (kept (columns df) c s m) (rows df)).
  { subst d0. simpl. rewrite !filter_filter. apply filter_ext. intros r.
    unfold kept. now rewrite andb_assoc. }
  assert (Hc0 : has_column d0 "Percentage" = true) by (now subst d0).
  unfold top_n_step in H. rewrite Hc0 in H.
  replace (truthy (Some n)) with true in H
    by (simpl; destruct (Z.eqb_spec n 0); [lia|reflexivity]).
  cbn [andb] in H.
  apply bind_Ok_inv in H. destruct H as [sd [Hs H]]. injection H as <-.
  apply sort_values_perm in Hs. destruct Hs as [_ Hp].
  unfold len. cbn [rows int_of]. unfold head.
  destruct (Z.ltb_spec n 0); [lia|].
  rewrite length_firstn, (Permutation_length Hp), Hr0. reflexivity.
Qed.

End FilterMore.

Lemma filter_data_sound_witness :
  columns {| columns := ["Name"; "Percentage"]%string;
             rows := [[CStr "Ann"; CFloat (Fin 90)]] |} = columns gappy_dataset /\
  (forall r, In r [[CStr "Ann"; CFloat (Fin 90)]] ->
             In r (rows gappy_dataset) /\
             kept (columns gappy_dataset) (CStr "All") (CStr "All") (Fin 50) r = true) /\
  (1 <= len gappy_dataset)%nat.
Proof.
  apply (filter_data_sound (K := stable_quicksort) gappy_dataset
           (CStr "All") (CStr "All") (Fin 50) (Some 2)
           {| columns := ["Name"; "Percentage"]%string;
              rows := [[CStr "Ann"; CFloat (Fin 90)]] |}).
  reflexivity.
Defined.

Lemma filter_data_top_n_count_witness :
  len {| columns := ["Name"; "Percentage"]%string;
         rows := [[CStr "Ann"; CFloat (Fin 90)]; [CStr "Bob"; CFloat (Fin 80)]] |} =
    Nat.min (Z.to_nat 2)
      (length (filter (kept (columns ranked_dataset) (CStr "All") (CStr "All") (Fin 0))
                      (rows ranked_dataset))).
Proof.
  apply (filter_data_top_n_count (K := stable_quicksort) ranked_dataset
           (CStr "All") (CStr "All") (Fin 0) 2).
  - lia.
  - reflexivity.
  - reflexivity.
Defined.

(** ** [filter_data]: the records left out by [top_n] *)

Lemma StronglySorted_app {A : Type} (R : A -> A -> Prop) (l1 l2 : list A) :
  StronglySorted R l1 -> StronglySorted R l2 ->
  (forall a b, In a l1 -> In b l2 -> R a b) ->
  StronglySorted R (l1 ++ l2).
Proof.
  intros H1 H2 H. induction H1 as [|x l1 H1 IH Hx]; [exact H2|].
  simpl. constructor.
  - apply IH. intros a b Ha Hb. apply H; [now right|exact Hb].
  - apply Forall_app. split; [exact Hx|].
    apply Forall_forall. intros b Hb. apply H; [now left|exact Hb].
Qed.

Lemma StronglySorted_firstn_skipn {A : Type} (R : A -> A -> Prop) (k : nat)
    (l : list A) (a b : A) :
  StronglySorted R l -> In a (firstn k l) -> In b (skipn k l) -> R a b.
Proof.
  intros H. revert k. induction H as [|x l Hl IH Hx]; intros k Ha Hb.
  - destruct k; easy.
  - destruct k as [|k]; [easy|]. simpl in Ha, Hb.
    destruct Ha as [->|Ha]; [|now apply (IH k)].
    rewrite Forall_forall in Hx. apply Hx.
    rewrite <- (firstn_skipn k l). apply in_or_app. now right.
Qed.

Section TopNBest.

Context {K : Quicksort}.

(** X21. With a positive [top_n] and a [Percentage] column, the records
    that pass the three tests split into those returned and those left
    out, and no record left out outranks a record returned: it has no
    Percentage, or its Percentage is at most that of each returned
    record. *)
Theorem filter_data_top_n_best (df : DataFrame) (c s : cell) (m : float)
    (n : Z) (d : DataFrame) :
  0 < n ->
  has_column df "Percentage" = true ->
  filter_data df c s m (Some n) = Ok d ->
  exists left_out,
    Permutation (rows d ++ left_out) (filter (kept (columns df) c s m) (rows df)) /\
    forall a b, In a (rows d) -> In b left_out -> outranks (columns df) a b.
Proof.
  intros Hn Hc H. apply filter_data_inv in H. destruct H as [d0 [Hd0 H]].
  assert (Hr0 : rows d0 = filter (kept (columns df) c s m) (rows df)).
  { subst d0. simpl. rewrite !filter_filter. apply filter_ext. intros r.
    unfold kept. now rewrite andb_assoc. }
  assert (Hc0 : columns d0 = columns df) by (now subst d0).
  assert (Hh : has_column d0 "Percentage" = true) by (now subst d0).
  assert (Hnum : numeric_column (column d0 "Percentage")).
  { unfold top_n_step in H. rewrite Hh in H.
    replace (truthy (Some n)) with true in H
      by (simpl; destruct (Z.eqb_spec n 0); [lia|reflexivity]).
    cbn [andb] in H. apply bind_Ok_inv in H. destruct H as [sd [Hs _]].
    now apply sort_values_numeric in Hs. }
  rewrite top_n_step_active in H by (try lia; assumption).
  injection H as <-. cbn [rows].
  pose proof (present_keys d0 Hnum) as PK. rewrite Hc0 in *.
  unfold head. destruct (Z.ltb_spec n 0); [lia|].
  set (SP := qsort (pct_key (columns df)) (filter (present (columns df)) (rows d0))).
  set (M := filter (missing (columns df)) (rows d0)).
  exists (skipn (Z.to_nat n) (SP ++ M)). split.
  - rewrite firstn_skipn, <- Hr0. unfold SP, M. rewrite qsort_perm.
    apply (filter_partition_perm (missing (columns df))).
  - intros a b Ha Hb.
    apply (StronglySorted_firstn_skipn (outranks (columns df)) (Z.to_nat n) (SP ++ M));
      [|exact Ha|exact Hb].
    apply StronglySorted_app.
    + assert (Hs : descending (columns df) SP).
      { apply qsort_sorted. exact PK. }
      unfold descending in Hs. clear -Hs.
      induction Hs as [|x l Hl IH Hx]; constructor; [exact IH|].
      eapply Forall_impl; [|exact Hx]. intros y Hy. now right.
    + unfold M. clear. induction (rows d0) as [|r l IH]; simpl; [constructor|].
      destruct (missing (columns df) r) eqn:E; [|exact IH].
      constructor; [exact IH|]. apply Forall_forall. intros y Hy.
      apply filter_In in Hy. left. now destruct Hy.
    + intros x y _ Hy. left. unfold M in Hy. apply filter_In in Hy. now destruct Hy.
Qed.

End TopNBest.

Lemma filter_data_top_n_best_witness :
  exists left_out,
    Permutation
      (rows {| columns := ["Name"; "Percentage"]%string;
               rows := [[CStr "Ann"; CFloat (Fin 90)]; [CStr "Cy"; CFloat (Fin 30)]] |}
       ++ left_out)
      (filter (kept (columns gappy_dataset) (CStr "All") (CStr "All") (Fin 0))
              (rows gappy_dataset)) /\
    forall a b,
      In a (rows {| columns := ["Name"; "Percentage"]%string;
                    rows := [[CStr "Ann"; CFloat (Fin 90)]; [CStr "Cy"; CFloat (Fin 30)]] |}) ->
      In b left_out -> outranks (columns gappy_dataset) a b.
Proof.
  apply (filter_data_top_n_best (K := stable_quicksort) gappy_dataset
           (CStr "All") (CStr "All") (Fin 0) 2).
  - lia.
  - reflexivity.
  - reflexivity.
Defined.

(** ** [filter_data]: one step at a time, thresholds, absent columns *)

Lemma filter_eq_All (label : string) (df : DataFrame) :
  filter_eq label (CStr "All") df = df.
Proof. reflexivity. Qed.

Lemma filter_min_zero (df : DataFrame) : filter_min (Fin 0) df = Ok df.
Proof. reflexivity. Qed.

Lemma bind_Ok_r {A : Type} (m : result A) : bind m (fun a => Ok a) = m.
Proof. now destruct m. Qed.

Section FilterSteps.

Context {K : Quicksort}.

Lemma filter_data_class_only (df : DataFrame) (c : cell) :
  filter_data df c (CStr "All") (Fin 0) None = Ok (filter_eq "Class" c df).
Proof. reflexivity. Qed.

Lemma filter_data_section_only (df : DataFrame) (s : cell) :
  filter_data df (CStr "All") s (Fin 0) None = Ok (filter_eq "Section" s df).
Proof. reflexivity. Qed.

Lemma filter_data_threshold_only (df : DataFrame) (m : float) :
  filter_data df (CStr "All") (CStr "All") m None = filter_min m df.
Proof.
  unfold filter_data. rewrite !filter_eq_All.
  now destruct (filter_min m df).
Qed.

Lemma filter_data_top_n_only (df : DataFrame) (top_n : option Z) :
  filter_data df (CStr "All") (CStr "All") (Fin 0) top_n = top_n_step top_n df.
Proof.
  unfold filter_data. rewrite !filter_eq_All, filter_min_zero. cbn [bind].
  now destruct (top_n_step top_n df).
Qed.

(** X22. The filters can be applied one call at a time: filtering by
    class, then the result by section, then that result by threshold
    gives what the single call with the three parameters gives; and a
    call with [top_n] gives what the call without it followed by a call
    with [top_n] alone gives. *)
Theorem filter_data_stepwise (df : DataFrame) (c s : cell) (m : float)
    (top_n : option Z) :
  filter_data df c s m None =
    (d1 <- filter_data df c (CStr "All") (Fin 0) None ;;
     d2 <- filter_data d1 (CStr "All") s (Fin 0) None ;;
     filter_data d2 (CStr "All") (CStr "All") m None) /\
  filter_data df c s m top_n =
    (d <- filter_data df c s m None ;;
     filter_data d (CStr "All") (CStr "All") (Fin 0) top_n).
Proof.
  split.
  - rewrite filter_data_class_only. cbn [bind].
    rewrite filter_data_section_only. cbn [bind].
    rewrite filter_data_threshold_only. unfold filter_data.
    destruct (filter_min m _) as [d|e]; reflexivity.
  - unfold filter_data at 1 2.
    destruct (filter_min m _) as [d|e]; cbn [bind]; [|reflexivity].
    rewrite (top_n_step_inactive d None) by reflexivity. cbn [bind].
    rewrite filter_data_top_n_only. now destruct (top_n_step top_n d).
Qed.

Lemma fge_fgt_trans (a b c : float) :
  fge a b = true -> fgt b c = true -> fgt a c = true.
Proof.
  destruct a as [a| | |], b as [b| | |], c as [c| | |]; simpl;
    try discriminate; try reflexivity.
  intros H1 H2. apply Qle_bool_iff in H1.
  apply negb_true_iff, Qle_bool_false in H2. apply negb_true_iff.
  destruct (Qle_bool a c) eqn:E; [|reflexivity].
  apply Qle_bool_iff in E. lra.
Qed.

Lemma min_pred_weaken (cols : list string) (m1 m2 : float) (r : list cell) :
  fge m2 m1 = true -> min_pred cols m2 r = true -> min_pred cols m1 r = true.
Proof.
  intros Hm. unfold min_pred.
  destruct (existsb (String.eqb "Percentage") cols); [|now rewrite !andb_false_r].
  rewrite !andb_true_r.
  destruct (fgt m1 (Fin 0)) eqn:E1; [|reflexivity].
  rewrite (fge_fgt_trans _ _ _ Hm E1).
  destruct (cell_at cols "Percentage" r) as [x|z|t|]; cbn [cell_ge get];
    try discriminate.
  - intros H. now apply fge_trans with m2.
  - intros H. now apply fge_trans with m2.
Qed.

(** X23. Raising the threshold never adds a record: without [top_n], the
    records returned for [min_percent = m2] are among those returned for
    any [m1 <= m2], the class and the section being the same. *)
Theorem filter_data_threshold_monotone (df : DataFrame) (c s : cell)
    (m1 m2 : float) (d1 d2 : DataFrame) :
  fge m2 m1 = true ->
  filter_data df c s m1 None = Ok d1 ->
  filter_data df c s m2 None = Ok d2 ->
  incl (rows d2) (rows d1).
Proof.
  intros Hm H1 H2.
  apply filter_data_rows_None in H1. apply filter_data_rows_None in H2.
  subst d1 d2. simpl. intros r Hr.
  apply filter_In in Hr. destruct Hr as [Hin Hk]. apply filter_In.
  split; [exact Hin|]. unfold kept in *.
  apply andb_true_iff in Hk. destruct Hk as [Hk Hp]. rewrite Hk. simpl.
  now apply (min_pred_weaken _ m1 m2).
Qed.

(** X24. A frame that lacks the column a step needs is filtered as if the
    step had not been asked for: without a [Class] column the class
    selection is ignored, without a [Section] column the section
    selection, and without a [Percentage] column both the threshold and
    [top_n]. *)
Theorem filter_data_absent_columns (df : DataFrame) (c s : cell) (m : float)
    (top_n : option Z) :
  (has_column df "Class" = false ->
   filter_data df c s m top_n = filter_data df (CStr "All") s m top_n) /\
  (has_column df "Section" = false ->
   filter_data df c s m top_n = filter_data df c (CStr "All") m top_n) /\
  (has_column df "Percentage" = false ->
   filter_data df c s m top_n = filter_data df c s (Fin 0) None).
Proof.
  split; [|split]; intros H; unfold filter_data.
  - unfold filter_eq at 2 4. now rewrite H, andb_false_r.
  - assert (H' : has_column (filter_eq "Class" c df) "Section" = false).
    { now rewrite (subframe_has_column _ df) by apply filter_eq_subframe. }
    unfold filter_eq at 1 3. now rewrite H', andb_false_r.
  - set (d2 := filter_eq "Section" s (filter_eq "Class" c df)).
    assert (H' : has_column d2 "Percentage" = false).
    { unfold d2. rewrite (subframe_has_column _ df); [exact H|].
      eapply subframe_trans; apply filter_eq_subframe. }
    unfold filter_min. rewrite H', !andb_false_r. cbn [bind].
    now rewrite !top_n_step_inactive by (now rewrite H', ?andb_false_r).
Qed.

End FilterSteps.

Lemma filter_data_threshold_monotone_witness :
  incl (rows {| columns := ["Name"; "Percentage"]%string;
                rows := [[CStr "Ann"; CFloat (Fin 90)]] |})
       (rows {| columns := ["Name"; "Percentage"]%string;
                rows := [[CStr "Ann"; CFloat (Fin 90)]; [CStr "Cy"; CFloat (Fin 30)]] |}).
Proof.
  apply (filter_data_threshold_monotone (K := stable_quicksort) gappy_dataset
           (CStr "All") (CStr "All") (Fin 10) (Fin 50)); reflexivity.
Defined.

Lemma filter_data_absent_columns_witness :
  filter_data (K := stable_quicksort) example_dataset
    (CStr "10A") (CStr "B") (Fin 50) (Some 1) =
  filter_data (K := stable_quicksort) example_dataset
    (CStr "10A") (CStr "B") (Fin 0) None.
Proof.
  apply (proj2 (proj2 (filter_data_absent_columns (K := stable_quicksort)
                         example_dataset (CStr "10A") (CStr "B") (Fin 50) (Some 1)))).
  reflexivity.
Defined.

(** ** [app.py]: the totals of the dashboard *)

Lemma add_missing_present (keys : list string) (df : DataFrame) :
  (forall k, In k keys -> In k (columns df)) -> add_missing df keys = df.
Proof.
  unfold add_missing. induction keys as [|k keys IH]; intros H; [reflexivity|].
  simpl. replace (has_column df k) with true.
  - simpl. apply IH. intros k' Hk'. apply H. now right.
  - symmetry. apply has_column_In, H. now left.
Qed.

Lemma trunc_inject_Z (z : Z) : trunc (inject_Z z) = z.
Proof.
  unfold trunc. destruct (Qle_bool 0 (inject_Z z)); [apply Qfloor_Z | apply Qceiling_Z].
Qed.

Lemma sum_int_values (cells : list cell) :
  forallb is_int cells = true ->
  (Qsum (values cells) == inject_Z (sum_int cells))%Q.
Proof.
  induction cells as [|v l IH]; [reflexivity|].
  simpl. destruct v as [x|z|s|]; try discriminate. intros H.
  cbn [score Qsum fold_right]. fold (Qsum (values l)).
  rewrite (IH H), inject_Z_plus. reflexivity.
Qed.

Lemma row_totals_valid (sel : list (list cell)) :
  Forall (Forall valid) sel ->
  row_totals sel = Ok (map (row_total (forallb (forallb is_int) sel)) sel).
Proof.
  intros H. unfold row_totals, row_total.
  destruct (forallb (forallb is_int) sel); [reflexivity|].
  rewrite (mapM_map sum_skipna (fun cells => Fin (Qred (Qsum (values cells))))).
  - cbn [bind]. now rewrite map_map.
  - intros cells Hin. rewrite Forall_forall in H. now apply sum_skipna_values, H.
Qed.

Lemma row_total_facts (sel : list (list cell)) (cells : list cell) (d : Z) :
  In cells sel -> d <> 0 ->
  let t := row_total (forallb (forallb is_int) sel) cells in
  as_int t = CInt (trunc (Qsum (values cells))) /\
  exists p, cell_percent d t = Ok (CFloat p) /\
            round2 p = Fin (percent_of (Qsum (values cells)) d).
Proof.
  intros Hin Hd. unfold row_total.
  destruct (forallb (forallb is_int) sel) eqn:E.
  - assert (Hi : forallb is_int cells = true).
    { rewrite forallb_forall in E. now apply E. }
    pose proof (sum_int_values cells Hi) as HS. cbn [as_int cell_percent]. split.
    + f_equal. rewrite (trunc_comp _ _ HS). symmetry. apply trunc_inject_Z.
    + eexists. split; [reflexivity|]. unfold of_Z.
      rewrite scale_round_any by exact Hd. f_equal. now apply percent_of_comp.
  - cbn [as_int cell_percent]. split.
    + f_equal. apply trunc_comp, Qred_correct.
    + eexists. split; [reflexivity|]. now apply scale_round.
Qed.

(** X25. The Total and Percentage that the dashboard script computes in
    place (lines 59-60) are those of the zero-fill policy before the cast
    and the rounding: for subject columns that are all in the frame and
    hold finite numbers or missing values, casting the script's Total to
    an integer and rounding its Percentage to two decimals gives the
    columns that [compute_student_aggregates] returns under zero-fill. *)
Theorem dashboard_totals_are_zero_fill (df : DataFrame) (subject_cols : list string) :
  wf df ->
  subject_cols <> [] ->
  (forall k, In k subject_cols -> In k (columns df)) ->
  (forall r k v, In r (rows df) -> In k subject_cols ->
                 In v (cells_at (columns df) r k) -> valid v) ->
  exists da dz,
    process_data df subject_cols = Ok da /\
    compute_student_aggregates df subject_cols true = Ok dz /\
    column dz "Total" = map as_int (column da "Total") /\
    column dz "Percentage" = map rounded (column da "Percentage").
Proof.
  intros Hwf Hne Hin Hv.
  destruct (zero_fill_columns df subject_cols Hwf Hne Hv) as [dz [Hz [HT HP]]].
  assert (HV : Forall (Forall valid) (subject_cells df subject_cols)).
  { apply subject_cells_Forall; [|exact Hwf|exact Hv]. right. now exists 0%Q. }
  pose proof (getitem_add_missing df subject_cols) as G.
  fold (subject_cells df subject_cols) in G.
  rewrite (add_missing_present subject_cols df Hin) in G.
  set (sel := subject_cells df subject_cols) in *.
  set (d := Z.of_nat (length subject_cols) * 100).
  assert (Hd : d <> 0) by (unfold d; destruct subject_cols; [easy|simpl length; lia]).
  set (ints := forallb (forallb is_int) sel).
  set (T := map (row_total ints) sel).
  assert (Lsel : length sel = len df).
  { unfold sel. rewrite subject_cells_length.
    now rewrite (add_missing_present subject_cols df Hin). }
  assert (LT : length T = len df) by (unfold T; now rewrite length_map).
  set (d1 := setitem "Total" T df).
  assert (C1 : column d1 "Total" = T) by (now apply column_setitem_same).
  assert (W1 : wf d1) by (now apply wf_setitem).
  assert (L1 : len d1 = len df) by (now apply len_setitem).
  set (g := fun cells => get CNone (cell_percent d (row_total ints cells))).
  assert (HM : mapM (cell_percent d) T = Ok (map g sel)).
  { rewrite (mapM_map (cell_percent d) (fun v => get CNone (cell_percent d v))).
    - unfold T, g. now rewrite map_map.
    - intros v Hin'. unfold T in Hin'. apply in_map_iff in Hin'.
      destruct Hin' as [cells [<- Hc]].
      destruct (row_total_facts sel cells d Hc Hd) as [_ [p [Hp _]]].
      fold ints in Hp. now rewrite Hp. }
  exists (setitem "Percentage" (map g sel) d1), dz.
  split; [|split; [exact Hz|split]].
  - unfold process_data. rewrite G. cbn [bind].
    rewrite (row_totals_valid sel HV). cbn [bind]. fold ints. fold T. fold d1.
    rewrite C1. fold d. rewrite HM. reflexivity.
  - rewrite HT. rewrite column_setitem_other
      by (try reflexivity; try assumption; rewrite length_map; congruence).
    rewrite C1. unfold T. rewrite map_map. apply map_ext_in. intros cells Hc.
    destruct (row_total_facts sel cells d Hc Hd) as [Ha _]. fold ints in Ha.
    now rewrite Ha.
  - rewrite HP. rewrite column_setitem_same
      by (try assumption; rewrite length_map; congruence).
    rewrite map_map. apply map_ext_in. intros cells Hc. unfold g.
    destruct (row_total_facts sel cells d Hc Hd) as [_ [p [Hp Hr]]].
    fold ints in Hp. rewrite Hp. cbn [get rounded]. rewrite Hr.
    unfold d. now rewrite Z.mul_comm.
Qed.

Lemma dashboard_totals_are_zero_fill_witness :
  exists da dz,
    process_data thirds_dataset thirds_subjects = Ok da /\
    compute_student_aggregates thirds_dataset thirds_subjects true = Ok dz /\
    column dz "Total" = map as_int (column da "Total") /\
    column dz "Percentage" = map rounded (column da "Percentage").
Proof.
  apply (dashboard_totals_are_zero_fill thirds_dataset thirds_subjects).
  - repeat constructor.
  - discriminate.
  - intros k Hk. exact Hk.
  - intros r k v [<-|[]] Hk Hv. right.
    simpl in Hk. destruct Hk as [<-|[<-|[<-|[]]]]; simpl in Hv;
      destruct Hv as [<-|[]]; now eexists.
Defined.

(** ** [app.py]: the table of the top students *)

Lemma filter_eqb_NoDup (cols : list string) (k : string) :
  NoDup cols -> In k cols -> filter (String.eqb k) cols = [k].
Proof.
  intros Hnd. induction Hnd as [|c cols Hc Hnd IH]; intros Hk; [easy|].
  simpl. destruct (String.eqb k c) eqn:E.
  - apply String.eqb_eq in E. subst c. f_equal.
    destruct (filter (String.eqb k) cols) as [|x l] eqn:F; [reflexivity|].
    assert (Hx : In x (filter (String.eqb k) cols)) by (rewrite F; now left).
    apply filter_In in Hx. destruct Hx as [Hx Ex].
    apply String.eqb_eq in Ex. now subst.
  - apply IH. destruct Hk as [->|Hk]; [|exact Hk].
    now rewrite String.eqb_refl in E.
Qed.

Lemma selected_labels (cols keys : list string) :
  NoDup cols -> (forall k, In k keys -> In k cols) ->
  flat_map (fun k => filter (String.eqb k) cols) keys = keys.
Proof.
  intros Hnd. induction keys as [|k keys IH]; intros H; [reflexivity|].
  simpl. rewrite filter_eqb_NoDup by (try exact Hnd; apply H; now left).
  simpl. f_equal. apply IH. intros k' Hk'. apply H. now right.
Qed.

Lemma cells_at_singleton (cols : list string) (r : list cell) (k : string) :
  NoDup cols -> length r = length cols -> In k cols ->
  cells_at cols r k = [cell_at cols k r].
Proof.
  intros Hnd Hlen Hk. pose proof (cells_at_NoDup cols r k Hnd Hlen Hk) as L.
  unfold cell_at. destruct (cells_at cols r k) as [|v [|w l]]; try discriminate.
  reflexivity.
Qed.

Lemma select_row_cells (cols keys : list string) (r : list cell) :
  NoDup cols -> length r = length cols -> (forall k, In k keys -> In k cols) ->
  select_row cols keys r = map (fun k => cell_at cols k r) keys.
Proof.
  intros Hnd Hlen. unfold select_row.
  induction keys as [|k keys IH]; intros H; [reflexivity|].
  simpl. rewrite cells_at_singleton by (try assumption; apply H; now left).
  simpl. f_equal. apply IH. intros k' Hk'. apply H. now right.
Qed.

Lemma cell_at_selected (keys : list string) (f : string -> cell) (k : string) :
  In k keys -> cell_at keys k (map f keys) = f k.
Proof.
  unfold cell_at. induction keys as [|c keys IH]; intros Hk; [easy|].
  simpl. destruct (String.eqb c k) eqn:E.
  - apply String.eqb_eq in E. now subst.
  - apply IH. destruct Hk as [->|Hk]; [|exact Hk].
    now rewrite String.eqb_refl in E.
Qed.

Lemma top_cols_labels (df : DataFrame) (k : string) :
  In k (top_cols df) <->
  In k ["Name"; "Section"; "Percentage"; "Total"]%string \/
  (k = "StudentID"%string /\ has_column df "StudentID" = true) \/
  (k = "Class"%string /\ has_column df "Class" = true).
Proof.
  unfold top_cols.
  destruct (has_column df "StudentID"), (has_column df "Class"); simpl;
    intuition (try discriminate; auto).
Qed.

Section TopStudents.
Context {K : Quicksort}.

(** X26. The table of the top students (lines 136-145) needs the columns
    Name, Section, Percentage and Total: when one of them is not in the
    filtered frame the selection raises [KeyError], whatever [top_n] is.
    When the four are there, on a frame with distinct labels whose
    Percentage holds numbers or missing values, the table is built; it has
    the labels of [top_cols] in that order and, for a [top_n] that is not
    negative, [top_n] records or all the records when these are fewer. *)
Theorem top_students_needs_columns (df_filtered : DataFrame) (top_n : Z) :
  wf df_filtered ->
  NoDup (columns df_filtered) ->
  numeric_column (column df_filtered "Percentage") ->
  if forallb (has_column df_filtered) ["Name"; "Section"; "Percentage"; "Total"]%string
  then exists t,
         top_students df_filtered top_n = Ok t /\
         columns t = top_cols df_filtered /\
         (0 <= top_n -> len t = Nat.min (Z.to_nat top_n) (len df_filtered))
  else top_students df_filtered top_n = Raise KeyError.
Proof.
  intros Hwf Hnd Hnum.
  set (four := ["Name"; "Section"; "Percentage"; "Total"]%string).
  destruct (forallb (has_column df_filtered) four) eqn:E.
  - assert (Hin : forall k, In k (top_cols df_filtered) -> In k (columns df_filtered)).
    { intros k Hk. apply has_column_In. apply top_cols_labels in Hk.
      destruct Hk as [Hk|[[-> Hk]|[-> Hk]]]; try exact Hk.
      rewrite forallb_forall in E. now apply E. }
    assert (G : forallb (has_column df_filtered) (top_cols df_filtered) = true).
    { apply forallb_forall. intros k Hk. now apply has_column_In, Hin. }
    assert (HP : In "Percentage"%string (top_cols df_filtered)).
    { apply top_cols_labels. left. simpl. tauto. }
    set (sub := {| columns := top_cols df_filtered;
                   rows := map (select_row (columns df_filtered) (top_cols df_filtered))
                               (rows df_filtered) |}).
    assert (Hsub : getitem_frame df_filtered (top_cols df_filtered) = Ok sub).
    { unfold getitem_frame, getitem. rewrite G. cbn [bind].
      now rewrite (selected_labels _ _ Hnd Hin). }
    assert (Hcol : column sub "Percentage" = column df_filtered "Percentage").
    { unfold column, sub. cbn [columns rows]. rewrite map_map.
      apply map_ext_in. intros r Hr.
      assert (Hlen : length r = length (columns df_filtered)).
      { unfold wf in Hwf. rewrite Forall_forall in Hwf. now apply Hwf. }
      rewrite (select_row_cells _ _ r Hnd Hlen Hin).
      now rewrite (cell_at_selected (top_cols df_filtered)
                     (fun k => cell_at (columns df_filtered) k r)). }
    destruct (sort_values_total sub) as [sorted Hs]; [now rewrite Hcol|].
    exists {| columns := columns sorted; rows := head top_n (rows sorted) |}.
    split; [|split].
    + unfold top_students. rewrite Hsub. cbn [bind]. rewrite Hs. reflexivity.
    + apply sort_values_perm in Hs. destruct Hs as [Hc _]. cbn [columns].
      now rewrite Hc.
    + intros Hn. apply sort_values_perm in Hs. destruct Hs as [_ Hp].
      unfold len. cbn [rows]. unfold head.
      destruct (Z.ltb_spec top_n 0); [lia|].
      rewrite length_firstn, (Permutation_length Hp). unfold sub. cbn [rows].
      now rewrite length_map.
  - assert (G : forallb (has_column df_filtered) (top_cols df_filtered) = false).
    { destruct (forallb (has_column df_filtered) (top_cols df_filtered)) eqn:G;
        [|reflexivity].
      rewrite <- E. symmetry. apply forallb_forall. intros k Hk.
      rewrite forallb_forall in G. apply G. apply top_cols_labels. now left. }
    unfold top_students, getitem_frame, getitem. rewrite G. reflexivity.
Qed.

End TopStudents.

Lemma top_students_needs_columns_witness :
  top_students (K := stable_quicksort) ranked_dataset 10 = Raise KeyError.
Proof.
  apply (top_students_needs_columns (K := stable_quicksort) ranked_dataset 10).
  - repeat constructor.
  - repeat constructor; simpl; intuition discriminate.
  - repeat constructor.
Defined.

(** ** [app.py]: from the totals to the filter and the indicators *)

Lemma row_totals_length (sel : list (list cell)) (total : list cell) :
  row_totals sel = Ok total -> length total = length sel.
Proof.
  unfold row_totals. destruct (forallb (forallb is_int) sel).
  - intros H. injection H as <-. apply length_map.
  - intros H. apply bind_Ok_inv in H. destruct H as [t [Ht H]]. injection H as <-.
    rewrite length_map. now apply mapM_Ok_length in Ht.
Qed.

Lemma process_data_inv (df da : DataFrame) (subject_cols : list string) :
  wf df ->
  process_data df subject_cols = Ok da ->
  exists total pct,
    length total = len df /\ length pct = len df /\
    Forall (fun v => exists x, v = CFloat x) pct /\
    da = setitem "Percentage" pct (setitem "Total" total df).
Proof.
  intros Hwf H. unfold process_data in H.
  apply bind_Ok_inv in H. destruct H as [sel [Hsel H]].
  apply bind_Ok_inv in H. destruct H as [total [Ht H]].
  apply bind_Ok_inv in H. destruct H as [pct [Hp H]]. injection H as <-.
  assert (Lsel : length sel = len df).
  { unfold getitem in Hsel. destruct (forallb (has_column df) subject_cols);
      [|discriminate]. injection Hsel as <-. apply length_map. }
  assert (Lt : length total = len df).
  { apply row_totals_length in Ht. congruence. }
  exists total, pct. split; [exact Lt|]. split; [|split; [|reflexivity]].
  - apply mapM_Ok_length in Hp. rewrite Hp. unfold column. rewrite length_map.
    fold (len (setitem "Total" total df)). now apply len_setitem.
  - revert Hp. apply mapM_Ok_Forall. intros [x|z|s|] b Hb; simpl in Hb;
      try discriminate; injection Hb as <-; now eexists.
Qed.

(** X27. What lines 59-60 leave in the frame can always be filtered and
    summarised (lines 71 and 74): the frame keeps its records, has a Total
    and a Percentage column, the Percentage of every record is a float,
    and for every choice of class, section, threshold and [top_n]
    [filter_data] succeeds on it and [compute_statistics] succeeds on the
    filtered frame. *)
Theorem dashboard_frame_is_usable (K : Quicksort) (df : DataFrame)
    (subject_cols : list string) (da : DataFrame) :
  wf df ->
  process_data df subject_cols = Ok da ->
  len da = len df /\
  has_column da "Total" = true /\
  has_column da "Percentage" = true /\
  Forall (fun v => exists x, v = CFloat x) (column da "Percentage") /\
  (forall (c s : cell) (m : float) (top_n : option Z),
      exists d', filter_data (K := K) da c s m top_n = Ok d' /\
                 exists st', compute_statistics d' = Ok st').
Proof.
  intros Hwf H.
  destruct (process_data_inv df da subject_cols Hwf H)
    as [total [pct [Lt [Lp [Hf ->]]]]].
  set (d1 := setitem "Total" total df).
  assert (W1 : wf d1) by (now apply wf_setitem).
  assert (L1 : len d1 = len df) by (now apply len_setitem).
  assert (HP : column (setitem "Percentage" pct d1) "Percentage" = pct).
  { apply column_setitem_same; [exact W1|congruence]. }
  assert (Hnum : numeric_column (column (setitem "Percentage" pct d1) "Percentage")).
  { rewrite HP. unfold numeric_column. revert Hf. apply Forall_impl.
    now intros v [x ->]. }
  split; [|split; [|split; [|split]]].
  - rewrite len_setitem by congruence. exact L1.
  - unfold d1. rewrite !has_column_setitem.
    destruct (has_column df "Total"); reflexivity.
  - rewrite has_column_setitem. apply orb_true_r.
  - now rewrite HP.
  - intros c s m top_n.
    destruct (filter_data_total (K := K) _ c s m top_n Hnum) as [d' Hd'].
    exists d'. split; [exact Hd'|].
    apply compute_statistics_total.
    apply (subframe_numeric d' (setitem "Percentage" pct d1)); [|exact Hnum].
    destruct (filter_data_kept _ _ _ _ _ _ Hd') as [Hc Hr].
    split; [exact Hc|]. intros r Hin. now apply Hr.
Qed.

Lemma dashboard_frame_is_usable_witness :
  exists da,
    process_data example_dataset example_subjects = Ok da /\
    len da = len example_dataset /\
    has_column da "Total" = true /\
    has_column da "Percentage" = true /\
    Forall (fun v => exists x, v = CFloat x) (column da "Percentage") /\
    (forall (c s : cell) (m : float) (top_n : option Z),
        exists d', filter_data (K := stable_quicksort) da c s m top_n = Ok d' /\
                   exists st', compute_statistics d' = Ok st').
Proof.
  eexists. split; [vm_compute; reflexivity|].
  apply (dashboard_frame_is_usable stable_quicksort example_dataset example_subjects).
  - repeat constructor.
  - vm_compute. reflexivity.
Defined.
